(** * Oricon creative checker: file normalisation, reply parsing, orchestration

    A shallow embedding of [core/file_processor.py] and
    [core/openai_checker.py], together with the parts of the Python
    runtime those two files rely on ([str] methods, slicing, [json.loads],
    [pathlib]'s suffix, [base64.b64encode]).

    Conventions.
    - A Python [str] is a list of Unicode code points ([list N]); indices,
      [find] and slices count code points, exactly as Python does.
    - A Python [dict] is an association list in insertion order with
      unique keys; results of the checker are such dictionaries.
    - A Python call that may raise returns [result A]. *)

From Stdlib Require Import List NArith ZArith Bool Lia.
From Stdlib.Strings Require Import String Ascii Byte.
From Stdlib Require Decimal DecimalNat.
Import ListNotations.

Local Open Scope N_scope.

(** ** Python strings *)

Module PyStr.

(** One code point. *)
Definition char := N.

(** A Python [str]. *)
Definition str := list char.

(** Decoder for the UTF-8 bytes of a literal written in this file:
    [need] continuation bytes are still expected for the code point whose
    high bits are [acc]. *)
Fixpoint utf8_go (s : string) (need : nat) (acc : N) : str :=
  match s with
  | EmptyString => []
  | String a s' =>
    let b := N_of_ascii a in
    match need with
    | O =>
      if b <? 0x80 then b :: utf8_go s' 0%nat 0
      else if b <? 0xE0 then utf8_go s' 1%nat (N.land b 0x1F)
      else if b <? 0xF0 then utf8_go s' 2%nat (N.land b 0x0F)
      else utf8_go s' 3%nat (N.land b 0x07)
    | S k =>
      let acc' := acc * 64 + N.land b 0x3F in
      match k with
      | O => acc' :: utf8_go s' 0%nat 0
      | S _ => utf8_go s' k acc'
      end
    end
  end.

(** The [str] denoted by a literal of the source. *)
Definition u (s : string) : str := utf8_go s 0%nat 0.

(** Same as [u], with every apostrophe read as a quotation mark
    (U+0022), for writing JSON sample texts. *)
Definition dq (s : string) : str :=
  map (fun c => if c =? 39 then 34 else c) (u s).

(** [a == b]. *)
Fixpoint str_eqb (a b : str) : bool :=
  match a, b with
  | [], [] => true
  | x :: a', y :: b' => (x =? y) && str_eqb a' b'
  | _, _ => false
  end.

(** [s.startswith(p)]. *)
Fixpoint startswith (p s : str) : bool :=
  match p, s with
  | [], _ => true
  | _ :: _, [] => false
  | a :: p', b :: s' => (a =? b) && startswith p' s'
  end.

(** [sub in s]. *)
Fixpoint contains (sub s : str) : bool :=
  startswith sub s ||
  match s with
  | [] => false
  | _ :: s' => contains sub s'
  end.

(** Leftmost occurrence of [sub] in [s], counted from index [i] of the
    whole string; [-1] when there is none. *)
Fixpoint find_at (sub s : str) (i : Z) : Z :=
  if startswith sub s then i
  else match s with
       | [] => (-1)%Z
       | _ :: s' => find_at sub s' (i + 1)%Z
       end.

(** Length as a Python [int]. *)
Definition len (s : str) : Z := Z.of_nat (List.length s).

(** [s.find(sub, start)]: a negative [start] counts from the end. *)
Definition find (s sub : str) (start : Z) : Z :=
  let start := if (start <? 0)%Z then Z.max 0 (start + len s) else start in
  if (len s <? start)%Z then (-1)%Z
  else find_at sub (skipn (Z.to_nat start) s) start.

(** Bound of a slice, as Python normalises it. *)
Definition slice_index (s : str) (i : Z) : Z :=
  if (i <? 0)%Z then Z.max 0 (i + len s) else Z.min i (len s).

(** [s[start:stop]]. *)
Definition slice (s : str) (start stop : Z) : str :=
  let a := slice_index s start in
  let b := slice_index s stop in
  firstn (Z.to_nat (b - a)) (skipn (Z.to_nat a) s).

(** [c.isspace()]: the code points Python treats as whitespace. *)
Definition isspace (c : char) : bool :=
  ((0x09 <=? c) && (c <=? 0x0D)) ||
  ((0x1C <=? c) && (c <=? 0x20)) ||
  (c =? 0x85) || (c =? 0xA0) || (c =? 0x1680) ||
  ((0x2000 <=? c) && (c <=? 0x200A)) ||
  (c =? 0x2028) || (c =? 0x2029) || (c =? 0x202F) ||
  (c =? 0x205F) || (c =? 0x3000).

(** [s.lstrip()]. *)
Fixpoint lstrip (s : str) : str :=
  match s with
  | [] => []
  | c :: s' => if isspace c then lstrip s' else s
  end.

(** [s.rstrip()]. *)
Definition rstrip (s : str) : str := rev (lstrip (rev s)).

(** [s.strip()]. *)
Definition strip (s : str) : str := rstrip (lstrip s).

(** [c.lower()] on the ASCII letters.  Other code points are left as they
    are: the only use is the comparison of a lower-cased file suffix with
    seven ASCII extensions, and no suffix with a code point outside ASCII
    lowers to one of them (the Kelvin sign lowers to k, which none of them
    has; the dotted capital I lowers to two code points). *)
Definition lower_char (c : char) : char :=
  if (0x41 <=? c) && (c <=? 0x5A) then c + 32 else c.

(** [s.lower()]. *)
Definition lower (s : str) : str := map lower_char s.

(** [str(n)] for a non-negative [int]. *)
Fixpoint digits_of_uint (d : Decimal.uint) : str :=
  match d with
  | Decimal.Nil => []
  | Decimal.D0 d => 0x30 :: digits_of_uint d
  | Decimal.D1 d => 0x31 :: digits_of_uint d
  | Decimal.D2 d => 0x32 :: digits_of_uint d
  | Decimal.D3 d => 0x33 :: digits_of_uint d
  | Decimal.D4 d => 0x34 :: digits_of_uint d
  | Decimal.D5 d => 0x35 :: digits_of_uint d
  | Decimal.D6 d => 0x36 :: digits_of_uint d
  | Decimal.D7 d => 0x37 :: digits_of_uint d
  | Decimal.D8 d => 0x38 :: digits_of_uint d
  | Decimal.D9 d => 0x39 :: digits_of_uint d
  end.

Definition str_of_nat (n : nat) : str := digits_of_uint (Nat.to_uint n).

(** Code point of an ASCII character literal. *)
Definition ch (a : ascii) : char := N_of_ascii a.

(** The quotation mark U+0022. *)
Definition quote : char := 0x22.

End PyStr.

Import PyStr.

(** ** Exceptions and results *)

(** The exceptions that can leave a call of the two modules.  The
    argument is [str(e)].  [json.JSONDecodeError] is not listed: it is
    caught where it is raised, see [_parse_response]. *)
Inductive exn : Type :=
| TypeError (msg : str)
| ValueError (msg : str)
| RuntimeError (msg : str)
| OtherError (msg : str).

(** [str(e)]. *)
Definition str_of_exn (e : exn) : str :=
  match e with
  | TypeError m | ValueError m | RuntimeError m | OtherError m => m
  end.

(** Outcome of a call that may raise. *)
Inductive result (A : Type) : Type :=
| Return (a : A)
| Raise (e : exn).

Arguments Return {A} a.
Arguments Raise {A} e.

(** ** JSON values and [json.loads] *)

Module Json.

Unset Elimination Schemes.

(** What [json.loads] builds.  A [float] is kept as the literal text
    handed to Python's [float()]; nothing below depends on its numeric
    value. *)
Inductive json : Type :=
| JNull
| JBool (b : bool)
| JInt (z : Z)
| JFloat (lexeme : str)
| JStr (s : str)
| JList (l : list json)
| JDict (d : list (str * json)).
Set Elimination Schemes.

(** A Python [dict] with [str] keys. *)
Definition dict := list (str * json).

(** [d.get(k)]. *)
Fixpoint dict_get (k : str) (d : dict) : option json :=
  match d with
  | [] => None
  | (k', v) :: d' => if str_eqb k' k then Some v else dict_get k d'
  end.

(** [k in d]. *)
Definition dict_has (k : str) (d : dict) : bool :=
  match dict_get k d with Some _ => true | None => false end.

(** [d[k] = v]: an existing key keeps its place, a new one goes last. *)
Fixpoint dict_set (d : dict) (k : str) (v : json) : dict :=
  match d with
  | [] => [(k, v)]
  | (k', v') :: d' =>
    if str_eqb k' k then (k', v) :: d' else (k', v') :: dict_set d' k v
  end.

(** [dict(pairs)]. *)
Definition dict_of_pairs (pairs : list (str * json)) : dict :=
  fold_left (fun d kv => dict_set d (fst kv) (snd kv)) pairs [].

(** [obj[k] = v] for any decoded value [obj]. *)
Definition setitem (obj : json) (k : str) (v : json) : result dict :=
  match obj with
  | JDict d => Return (dict_set d k v)
  | JList _ =>
    Raise (TypeError (u "list indices must be integers or slices, not str"))
  | JNull =>
    Raise (TypeError (u "'NoneType' object does not support item assignment"))
  | JBool _ =>
    Raise (TypeError (u "'bool' object does not support item assignment"))
  | JInt _ =>
    Raise (TypeError (u "'int' object does not support item assignment"))
  | JFloat _ =>
    Raise (TypeError (u "'float' object does not support item assignment"))
  | JStr _ =>
    Raise (TypeError (u "'str' object does not support item assignment"))
  end.

(** *** Lexical helpers of the decoder *)

(** The decoder's own whitespace: space, tab, line feed, carriage return. *)
Definition is_json_ws (c : char) : bool :=
  (c =? 0x20) || (c =? 0x09) || (c =? 0x0A) || (c =? 0x0D).

Fixpoint skip_ws (s : str) : str :=
  match s with
  | [] => []
  | c :: s' => if is_json_ws c then skip_ws s' else s
  end.

Definition is_digit (c : char) : bool := (0x30 <=? c) && (c <=? 0x39).

(** Longest prefix of digits, and what follows it. *)
Fixpoint span_digits (s : str) : str * str :=
  match s with
  | [] => ([], [])
  | c :: r =>
    if is_digit c then let (ds, r') := span_digits r in (c :: ds, r')
    else ([], s)
  end.

Definition int_of_digits (ds : str) : Z :=
  fold_left (fun acc c => (acc * 10 + (Z.of_N c - 48))%Z) ds 0%Z.

Definition hexval (c : char) : option N :=
  if is_digit c then Some (c - 0x30)
  else if (0x61 <=? c) && (c <=? 0x66) then Some (c - 0x61 + 10)
  else if (0x41 <=? c) && (c <=? 0x46) then Some (c - 0x41 + 10)
  else None.

(** The four hex digits of a [\uXXXX] escape. *)
Definition decode_uXXXX (h1 h2 h3 h4 : char) : option N :=
  match hexval h1, hexval h2, hexval h3, hexval h4 with
  | Some a, Some b, Some c, Some d => Some (((a * 16 + b) * 16 + c) * 16 + d)
  | _, _, _, _ => None
  end.

(** The one-letter escapes. *)
Definition BACKSLASH (esc : char) : option char :=
  if esc =? quote then Some quote
  else if esc =? ch "\" then Some (ch "\")
  else if esc =? ch "/" then Some (ch "/")
  else if esc =? ch "b" then Some 0x08
  else if esc =? ch "f" then Some 0x0C
  else if esc =? ch "n" then Some 0x0A
  else if esc =? ch "r" then Some 0x0D
  else if esc =? ch "t" then Some 0x09
  else None.

Definition is_high_surrogate (x : N) : bool := (0xD800 <=? x) && (x <=? 0xDBFF).
Definition is_low_surrogate (x : N) : bool := (0xDC00 <=? x) && (x <=? 0xDFFF).

(** [scanstring] in strict mode: [s] starts just after the opening
    quotation mark; the result is the decoded text and what follows the
    closing mark.  [None] stands for [JSONDecodeError] (no closing mark, a
    control character, a bad escape). *)
Fixpoint scanstring (s : str) : option (str * str) :=
  match s with
  | [] => None
  | c :: r =>
    if c =? quote then Some ([], r)
    else if c <? 0x20 then None
    else if c =? ch "\" then
      match r with
      | [] => None
      | esc :: r1 =>
        if esc =? ch "u" then
          match r1 with
          | h1 :: h2 :: h3 :: h4 :: r2 =>
            match decode_uXXXX h1 h2 h3 h4 with
            | None => None
            | Some uni =>
              let plain :=
                match scanstring r2 with
                | Some (cs, rest) => Some (uni :: cs, rest)
                | None => None
                end in
              if is_high_surrogate uni then
                match r2 with
                | b :: l :: g1 :: g2 :: g3 :: g4 :: r4 =>
                  if (b =? ch "\") && (l =? ch "u") then
                    match decode_uXXXX g1 g2 g3 g4 with
                    | None => None
                    | Some uni2 =>
                      if is_low_surrogate uni2 then
                        match scanstring r4 with
                        | Some (cs, rest) =>
                          Some (0x10000 + N.lor (N.shiftl (uni - 0xD800) 10)
                                                (uni2 - 0xDC00) :: cs, rest)
                        | None => None
                        end
                      else plain
                    end
                  else plain
                | b :: l :: _ =>
                  if (b =? ch "\") && (l =? ch "u") then None else plain
                | _ => plain
                end
              else plain
            end
          | _ => None
          end
        else
          match BACKSLASH esc with
          | Some x =>
            match scanstring r1 with
            | Some (cs, rest) => Some (x :: cs, rest)
            | None => None
            end
          | None => None
          end
      end
    else
      match scanstring r with
      | Some (cs, rest) => Some (c :: cs, rest)
      | None => None
      end
  end.

(** The number pattern at the head of [s]: an optional minus sign and
    either a single 0 or a digit 1-9 followed by digits (the integer
    part); then, optionally, a dot and at least one digit (the fraction);
    then, optionally, e or E, an optional sign and at least one digit (the
    exponent).  The value is an [int] when only the integer part matched,
    else a [float]. *)
Definition match_number (s : str) : option (json * str) :=
  let (sign, s1) :=
    match s with
    | c :: r => if c =? ch "-" then ([c], r) else ([], s)
    | [] => ([], s)
    end in
  match s1 with
  | [] => None
  | d :: r =>
    if is_digit d then
      let (integer, r1) :=
        if d =? ch "0" then ([d], r)
        else let (ds, r') := span_digits r in (d :: ds, r') in
      let (frac, r2) :=
        match r1 with
        | c :: r' =>
          if c =? ch "." then
            match span_digits r' with
            | ([], _) => ([], r1)
            | (ds, r'') => (c :: ds, r'')
            end
          else ([], r1)
        | [] => ([], r1)
        end in
      let (exp, r3) :=
        match r2 with
        | e :: r' =>
          if (e =? ch "e") || (e =? ch "E") then
            let (sg, r'') :=
              match r' with
              | c :: t => if (c =? ch "-") || (c =? ch "+") then ([c], t) else ([], r')
              | [] => ([], r')
              end in
            match span_digits r'' with
            | ([], _) => ([], r2)
            | (ds, r''') => (e :: sg ++ ds, r''')
            end
          else ([], r2)
        | [] => ([], r2)
        end in
      match frac, exp with
      | [], [] =>
        let n := int_of_digits integer in
        Some (JInt (match sign with [] => n | _ => - n end)%Z, r3)
      | _, _ => Some (JFloat (sign ++ integer ++ frac ++ exp), r3)
      end
    else None
  end.

(** The values that need no recursion, in the order the scanner tries
    them: a string, [null], [true], [false], a number, [NaN], [Infinity],
    [-Infinity]. *)
Definition scan_atom (s : str) : option (json * str) :=
  match s with
  | [] => None
  | c :: r =>
    if c =? quote then
      match scanstring r with
      | Some (x, rest) => Some (JStr x, rest)
      | None => None
      end
    else if startswith (u "null") s then Some (JNull, skipn 4 s)
    else if startswith (u "true") s then Some (JBool true, skipn 4 s)
    else if startswith (u "false") s then Some (JBool false, skipn 5 s)
    else
      match match_number s with
      | Some res => Some res
      | None =>
        if startswith (u "NaN") s then Some (JFloat (u "NaN"), skipn 3 s)
        else if startswith (u "Infinity") s then Some (JFloat (u "Infinity"), skipn 8 s)
        else if startswith (u "-Infinity") s then Some (JFloat (u "-Infinity"), skipn 9 s)
        else None
      end
  end.

(** Outcome of a scan: a value and the rest of the text, a
    [JSONDecodeError], or the recursion budget used up. *)
Inductive scan : Type :=
| Scanned (v : json) (rest : str)
| Invalid
| Starved.

(** [scan_once] with the two container loops.  [JSONArray_loop] starts at
    an element, [JSONObject_loop] just after the quotation mark that opens
    a key; both carry what they have collected so far. *)
Fixpoint scan_once (fuel : nat) (s : str) : scan :=
  match fuel with
  | O => Starved
  | S fuel' =>
    match s with
    | [] => Invalid
    | c :: r =>
      if c =? ch "{" then
        match skip_ws r with
        | c1 :: r1 =>
          if c1 =? ch "}" then Scanned (JDict []) r1
          else if c1 =? quote then JSONObject_loop fuel' r1 []
          else Invalid
        | [] => Invalid
        end
      else if c =? ch "[" then
        match skip_ws r with
        | c1 :: r1 =>
          if c1 =? ch "]" then Scanned (JList []) r1
          else JSONArray_loop fuel' (c1 :: r1) []
        | [] => Invalid
        end
      else
        match scan_atom s with
        | Some (v, rest) => Scanned v rest
        | None => Invalid
        end
    end
  end
with JSONArray_loop (fuel : nat) (s : str) (values : list json) : scan :=
  match fuel with
  | O => Starved
  | S fuel' =>
    match scan_once fuel' s with
    | Scanned v r =>
      match skip_ws r with
      | c :: r1 =>
        if c =? ch "]" then Scanned (JList (values ++ [v])) r1
        else if c =? ch "," then JSONArray_loop fuel' (skip_ws r1) (values ++ [v])
        else Invalid
      | [] => Invalid
      end
    | Invalid => Invalid
    | Starved => Starved
    end
  end
with JSONObject_loop (fuel : nat) (s : str) (pairs : list (str * json)) : scan :=
  match fuel with
  | O => Starved
  | S fuel' =>
    match scanstring s with
    | None => Invalid
    | Some (key, r) =>
      match skip_ws r with
      | c :: r1 =>
        if c =? ch ":" then
          match scan_once fuel' (skip_ws r1) with
          | Scanned v r2 =>
            match skip_ws r2 with
            | c2 :: r3 =>
              if c2 =? ch "}" then
                Scanned (JDict (dict_of_pairs (pairs ++ [(key, v)]))) r3
              else if c2 =? ch "," then
                match skip_ws r3 with
                | q :: r4 =>
                  if q =? quote then JSONObject_loop fuel' r4 (pairs ++ [(key, v)])
                  else Invalid
                | [] => Invalid
                end
              else Invalid
            | [] => Invalid
            end
          | Invalid => Invalid
          | Starved => Starved
          end
        else Invalid
      | [] => Invalid
      end
    end
  end.

(** Recursion budget that [scan_once] never uses up on [s]. *)
Definition budget (s : str) : nat := 2 * List.length s + 1.

(** [json.loads(s)]; [None] stands for [json.JSONDecodeError].  Two
    limits of the interpreter are left out: its recursion limit on nested
    containers and its limit on the number of digits of an [int]
    literal. *)
Definition json_loads (s : str) : option json :=
  let s0 := skip_ws s in
  match scan_once (budget s0) s0 with
  | Scanned v rest =>
    match skip_ws rest with
    | [] => Some v
    | _ :: _ => None
    end
  | Invalid => None
  | Starved => None
  end.

End Json.

Import Json.

(** ** [core/file_processor.py] *)

Module FileProcessor.

(** *** Runtime pieces: [pathlib], [base64], the rasterizer *)

(** [s.split(sep)] for a one-character separator. *)
Fixpoint split_on (sep : char) (s : str) : list str :=
  match s with
  | [] => [[]]
  | c :: s' =>
    match split_on sep s' with
    | [] => [[c]]
    | w :: ws => if c =? sep then [] :: w :: ws else (c :: w) :: ws
    end
  end.

(** [Path(p).name] on a POSIX system: the last component of [p], where
    empty components and single dots do not count. *)
Definition path_name (p : str) : str :=
  last (filter (fun w => negb (str_eqb w []) && negb (str_eqb w (u ".")))
               (split_on (ch "/") p)) [].

(** Index of the last [c] in [s] when scanning from index [i] with [best]
    found so far. *)
Fixpoint rfind_at (c : char) (s : str) (i best : Z) : Z :=
  match s with
  | [] => best
  | x :: s' => rfind_at c s' (i + 1)%Z (if x =? c then i else best)
  end.

(** [s.rfind(c)]. *)
Definition rfind (s : str) (c : char) : Z := rfind_at c s 0%Z (-1)%Z.

(** [Path(p).suffix]: from the last dot of the name on, unless that dot
    is the first or the last character of the name. *)
Definition suffix (p : str) : str :=
  let name := path_name p in
  let i := rfind name (ch ".") in
  if ((0 <? i) && (i <? len name - 1))%Z then slice name i (len name) else [].

(** The base64 alphabet. *)
Definition b64_char (n : N) : char :=
  if n <? 26 then ch "A" + n
  else if n <? 52 then ch "a" + (n - 26)
  else if n <? 62 then ch "0" + (n - 52)
  else if n =? 62 then ch "+"
  else ch "/".

(** [base64.b64encode(bs).decode('utf-8')]. *)
Fixpoint b64encode (bs : list byte) : str :=
  match bs with
  | [] => []
  | [a] =>
    let x := Byte.to_N a in
    [b64_char (x / 4); b64_char (x mod 4 * 16); ch "="; ch "="]
  | [a; b] =>
    let x := Byte.to_N a in
    let y := Byte.to_N b in
    [b64_char (x / 4); b64_char (x mod 4 * 16 + y / 16);
     b64_char (y mod 16 * 4); ch "="]
  | a :: b :: c :: rest =>
    let x := Byte.to_N a in
    let y := Byte.to_N b in
    let z := Byte.to_N c in
    b64_char (x / 4) :: b64_char (x mod 4 * 16 + y / 16)
    :: b64_char (y mod 16 * 4 + z / 64) :: b64_char (z mod 64)
    :: b64encode rest
  end.

(** The PyMuPDF collaborator: whether the import succeeded, what
    [fitz.open(stream=..., filetype="pdf")] gives (the pages of the
    document in page order, or an exception), and the PNG bytes of a page
    rendered with the processor's scale matrix and no alpha channel. *)
Record Rasterizer : Type := {
  Page : Type;
  PYMUPDF_AVAILABLE : bool;
  fitz_open : list byte -> result (list Page);
  pixmap_png : Page -> list byte
}.

(** Streamlit's uploaded file: its name and what [read()] returns. *)
Record UploadedFile : Type := {
  name : str;
  read : list byte
}.

(** *** The class [FileProcessor] *)

Definition SUPPORTED_IMAGE_EXTENSIONS : list str :=
  [u ".png"; u ".jpg"; u ".jpeg"; u ".gif"; u ".webp"; u ".bmp"].

Definition SUPPORTED_DOC_EXTENSIONS : list str := [u ".pdf"].

(** [ext in exts]. *)
Definition ext_in (ext : str) (exts : list str) : bool :=
  existsb (str_eqb ext) exts.

Definition is_supported (file_path : str) : bool :=
  let ext := lower (suffix file_path) in
  ext_in ext SUPPORTED_IMAGE_EXTENSIONS || ext_in ext SUPPORTED_DOC_EXTENSIONS.

Definition get_file_type (file_path : str) : str :=
  let ext := lower (suffix file_path) in
  if ext_in ext SUPPORTED_IMAGE_EXTENSIONS then u "image"
  else if ext_in ext SUPPORTED_DOC_EXTENSIONS then u "pdf"
  else u "unknown".

Definition media_type_map : list (str * str) :=
  [(u ".png", u "image/png");
   (u ".jpg", u "image/jpeg");
   (u ".jpeg", u "image/jpeg");
   (u ".gif", u "image/gif");
   (u ".webp", u "image/webp");
   (u ".bmp", u "image/bmp")].

(** [m.get(k, default)] on a table of strings. *)
Fixpoint map_get (m : list (str * str)) (k default : str) : str :=
  match m with
  | [] => default
  | (k', v) :: m' => if str_eqb k' k then v else map_get m' k default
  end.

Definition _process_image_bytes (image_bytes : list byte) (ext : str)
  : list (str * str) :=
  let media_type := map_get media_type_map ext (u "image/png") in
  let base64_image := b64encode image_bytes in
  [(base64_image, media_type)].

Definition _process_pdf_bytes (fz : Rasterizer) (pdf_bytes : list byte)
  : result (list (str * str)) :=
  if negb (PYMUPDF_AVAILABLE fz) then
    Raise (RuntimeError (u "PyMuPDF is not installed. Cannot process PDF files."))
  else
    match fitz_open fz pdf_bytes with
    | Raise e => Raise e
    | Return doc =>
      Return (map (fun page => (b64encode (pixmap_png fz page), u "image/png")) doc)
    end.

Definition process_uploaded_file (fz : Rasterizer) (uploaded_file : UploadedFile)
  : result (list (str * str)) :=
  let file_name := name uploaded_file in
  let file_bytes := read uploaded_file in
  let ext := lower (suffix file_name) in
  if ext_in ext SUPPORTED_IMAGE_EXTENSIONS then
    Return (_process_image_bytes file_bytes ext)
  else if ext_in ext SUPPORTED_DOC_EXTENSIONS then
    _process_pdf_bytes fz file_bytes
  else
    Raise (ValueError (u "Unsupported file type: " ++ file_name)).

(** *** Files on disk *)

(** The file system as the processor uses it: what
    [open(path, "rb").read()] gives, or the exception it raises. *)
Record FileSystem : Type := {
  open_rb : str -> result (list byte)
}.

Definition _process_image (fs : FileSystem) (file_path : str)
  : result (list (str * str)) :=
  match open_rb fs file_path with
  | Raise e => Raise e
  | Return image_bytes =>
    let ext := lower (suffix file_path) in
    Return (_process_image_bytes image_bytes ext)
  end.

Definition _process_pdf (fz : Rasterizer) (fs : FileSystem) (file_path : str)
  : result (list (str * str)) :=
  if negb (PYMUPDF_AVAILABLE fz) then
    Raise (RuntimeError (u "PyMuPDF is not installed. Cannot process PDF files."))
  else
    match open_rb fs file_path with
    | Raise e => Raise e
    | Return pdf_bytes => _process_pdf_bytes fz pdf_bytes
    end.

Definition process_file (fz : Rasterizer) (fs : FileSystem) (file_path : str)
  : result (list (str * str)) :=
  let file_type := get_file_type file_path in
  if str_eqb file_type (u "image") then _process_image fs file_path
  else if str_eqb file_type (u "pdf") then _process_pdf fz fs file_path
  else Raise (ValueError (u "Unsupported file type: " ++ file_path)).

Definition get_pdf_page_count_from_bytes (fz : Rasterizer) (pdf_bytes : list byte)
  : result nat :=
  if negb (PYMUPDF_AVAILABLE fz) then
    Raise (RuntimeError (u "PyMuPDF is not installed."))
  else
    match fitz_open fz pdf_bytes with
    | Raise e => Raise e
    | Return doc => Return (List.length doc)
    end.

End FileProcessor.

(** ** [core/openai_checker.py] *)

Module OpenAICreativeChecker.

(** *** The remote collaborator *)

(** The arguments of one [chat.completions.create] call. *)
Record request : Type := {
  model : str;
  system_content : str;
  user_text : str;
  image_url : str;
  detail : str;
  max_tokens : nat;
  temperature : str
}.

(** The OpenAI client, as seen by the checker: a call takes the state of
    the outside world to the reply and a new state.  The reply is the text
    [response.choices[0].message.content], or the exception that the call
    or the access to that field raised. *)
Record OpenAI : Type := {
  World : Type;
  create : request -> World -> result str * World
}.

(** *** Sequencing of calls that may raise *)

Definition bind {A B : Type} (r : result A) (k : A -> result B) : result B :=
  match r with
  | Return a => k a
  | Raise e => Raise e
  end.

Notation "x <- r ;; k" := (bind r (fun x => k))
  (at level 61, r at next level, right associativity).

(** [try: body  except Exception as e: handler(e)], both returning. *)
Definition try_except {A : Type} (body : result A) (handler : exn -> A) : A :=
  match body with
  | Return a => a
  | Raise e => handler e
  end.

(** *** The class [OpenAICreativeChecker] *)

(** The text that [_parse_response] hands to [json.loads]. *)
Definition json_str (content : str) : str :=
  if contains (u "```json") content then
    let json_start := (find content (u "```json") 0 + 7)%Z in
    let json_end := find content (u "```") json_start in
    strip (slice content json_start json_end)
  else if contains (u "```") content then
    let json_start := (find content (u "```") 0 + 3)%Z in
    let json_end := find content (u "```") json_start in
    strip (slice content json_start json_end)
  else
    strip content.

Definition _create_fallback_result (content file_name : str) : dict :=
  let judgment :=
    if contains (u "問題なし") content then u "問題なし"
    else if contains (u "問題あり") content
            || contains (u "禁止") content
            || contains (u "不合格") content then u "問題あり"
    else u "要確認" in
  [(u "file_name", JStr file_name);
   (u "company_name", JStr (u "不明"));
   (u "judgment", JStr judgment);
   (u "issues",
    JList [JDict [(u "severity", JStr (u "info"));
                  (u "category", JStr (u "パースエラー"));
                  (u "description",
                   JStr (u "JSON形式での解析に失敗しました。以下の生テキストを確認してください。"))]]);
   (u "detected_elements",
    JDict [(u "year", JNull);
           (u "issuer", JNull);
           (u "ranking_name", JNull);
           (u "position", JNull);
           (u "trademark_symbol", JBool false)]);
   (u "notes", JStr content);
   (u "raw_response", JStr content)].

(** The [try] block decodes and stamps the file name; only
    [json.JSONDecodeError] is caught, anything else leaves the function. *)
Definition _parse_response (content file_name : str) : result dict :=
  match json_loads (json_str content) with
  | Some result => setitem result (u "file_name") (JStr file_name)
  | None => Return (_create_fallback_result content file_name)
  end.

(** The dictionary built by the [except Exception] branch of
    [check_image]. *)
Definition api_error_result (display_name : str) (e : exn) : dict :=
  [(u "file_name", JStr display_name);
   (u "company_name", JStr (u "不明"));
   (u "judgment", JStr (u "エラー"));
   (u "issues",
    JList [JDict [(u "severity", JStr (u "critical"));
                  (u "category", JStr (u "システムエラー"));
                  (u "description",
                   JStr (u "API呼び出しエラー: " ++ str_of_exn e))]]);
   (u "detected_elements",
    JDict [(u "year", JNull);
           (u "issuer", JNull);
           (u "ranking_name", JNull);
           (u "position", JNull);
           (u "trademark_symbol", JBool false)]);
   (u "notes", JStr (u "APIエラーが発生しました。再試行してください。"))].

(** The file name shown for a payload. *)
Definition display_name_of (file_name : str) (page_num : option nat) : str :=
  match page_num with
  | Some n => file_name ++ u " (ページ " ++ str_of_nat (n + 1) ++ u ")"
  | None => file_name
  end.

(** The request [check_image] sends. *)
Definition request_of (prompt display_name media_type base64_image : str)
  : request :=
  {| model := u "gpt-4o";
     system_content := prompt;
     user_text :=
       u "このクリエイティブ画像を分析してください。ファイル名: " ++ display_name
       ++ [0x0A; 0x0A] ++ u "必ずJSON形式で結果を出力してください。";
     image_url := u "data:" ++ media_type ++ u ";base64," ++ base64_image;
     detail := u "high";
     max_tokens := 2000;
     temperature := u "0.1" |}.

Definition check_image (cl : OpenAI) (prompt : str)
  (base64_image media_type file_name : str) (page_num : option nat)
  (w : World cl) : dict * World cl :=
  let display_name := display_name_of file_name page_num in
  let (reply, w') :=
    create cl (request_of prompt display_name media_type base64_image) w in
  (try_except
     (content <- reply ;;
      result <- _parse_response content display_name ;;
      Return result)
     (fun e => api_error_result display_name e),
   w').

(** The [for] loop of [check_multiple_images]: [n_images] is
    [len(images)], [i] the index that [enumerate] has reached, [rest] the
    payloads still to come and [results] the list built so far. *)
Fixpoint check_loop (cl : OpenAI) (prompt file_name : str) (n_images i : nat)
  (rest : list (str * str)) (results : list dict) (w : World cl)
  : list dict * World cl :=
  match rest with
  | [] => (results, w)
  | (base64_image, media_type) :: rest' =>
    let (result, w') :=
      check_image cl prompt base64_image media_type file_name
                  (if (1 <? n_images)%nat then Some i else None) w in
    check_loop cl prompt file_name n_images (S i) rest' (results ++ [result]) w'
  end.

Definition check_multiple_images (cl : OpenAI) (prompt : str)
  (images : list (str * str)) (file_name : str) (w : World cl)
  : list dict * World cl :=
  check_loop cl prompt file_name (List.length images) 0 images [] w.

(** *** Construction of the checker *)

(** The process environment: [os.getenv(name)]. *)
Definition Environ := str -> option str.

(** The prompt files as the checker sees them: the path
    [Path(__file__).parent.parent / "config" / "prompt.txt"] as a string,
    [Path.exists], and what opening a path as UTF-8 text and reading it
    gives. *)
Record PromptFiles : Type := {
  package_prompt_path : str;
  exists_ : str -> bool;
  read_text : str -> result str
}.

Definition _get_default_prompt : str :=
  dq "
# オリコン顧客満足度調査 クリエイティブチェックAI

この画像を分析し、オリコン顧客満足度(R)調査の表現規定に準拠しているかを検証してください。

## チェック項目

1. **禁止表現**: 「オリコンランキング」「オリコン1位」「オリコンNo.1」などの禁止表現
2. **必須要素**: 年度、発行元（(R)マーク付き）、ランキング名、順位の4要素
3. **フォーマット**: 半角スペース区切り、(R)マークの存在
4. **ロゴ**: 変形・色変更・装飾などの禁止加工

## 出力フォーマット（JSON）

```json
{
  'file_name': 'ファイル名',
  'company_name': '企業名（クリエイティブから判別）',
  'judgment': '問題なし / 問題あり / 要確認',
  'issues': [
    {
      'severity': 'critical / warning / info',
      'category': '禁止表現 / 必須要素 / フォーマット / ロゴ / 視認性',
      'description': '具体的な問題内容'
    }
  ],
  'detected_elements': {
    'year': '検出された年度',
    'issuer': '検出された発行元表記',
    'ranking_name': '検出されたランキング名',
    'position': '検出された順位',
    'trademark_symbol': true/false
  },
  'notes': 'その他の気づき・確認推奨事項'
}
```
".

(** The candidate paths in the order they are tried; the second and the
    third are the same path, [Path] drops a leading [./]. *)
Definition possible_paths (pf : PromptFiles) : list str :=
  [package_prompt_path pf; u "config/prompt.txt"; u "config/prompt.txt"].

(** The [for] loop of [_load_prompt] over the paths still to try. *)
Fixpoint load_prompt_from (pf : PromptFiles) (paths : list str) : result str :=
  match paths with
  | [] => Return _get_default_prompt
  | prompt_path :: paths' =>
    if exists_ pf prompt_path then read_text pf prompt_path
    else load_prompt_from pf paths'
  end.

Definition _load_prompt (pf : PromptFiles) : result str :=
  load_prompt_from pf (possible_paths pf).

(** Python's truth value of an optional string. *)
Definition truthy (s : option str) : bool :=
  match s with
  | Some (_ :: _) => true
  | _ => false
  end.

(** What [__init__] leaves in the object: the key and the prompt (the
    client built from the key is the parameter [cl] of the methods). *)
Record Checker : Type := {
  api_key : option str;
  prompt : str
}.

Definition __init__ (getenv : Environ) (pf : PromptFiles)
  (api_key : option str) : result Checker :=
  let api_key := if truthy api_key then api_key else getenv (u "OPENAI_API_KEY") in
  if negb (truthy api_key) then
    Raise (ValueError (u "OpenAI API key is required. Set OPENAI_API_KEY environment variable or pass api_key parameter."))
  else
    prompt <- _load_prompt pf ;;
    Return {| api_key := api_key; prompt := prompt |}.

End OpenAICreativeChecker.

(** ** [app.py] *)

Module App.

Import FileProcessor OpenAICreativeChecker.

(** Streamlit's secrets as [get_api_key] reads them: whether [st] has the
    attribute, what the test for the section [openai] gives, and what
    reading the key of that section gives. *)
Record Secrets : Type := {
  has_secrets : bool;
  openai_in_secrets : result bool;
  secrets_openai_api_key : result str
}.

Definition get_api_key (st : Secrets) (getenv : Environ) : str :=
  match
    (if has_secrets st then
       found <- openai_in_secrets st ;;
       if found : bool then
         key <- secrets_openai_api_key st ;;
         Return (Some key)
       else Return None
     else Return None)
  with
  | Return (Some key) => key
  | _ =>
    let env_key :=
      match getenv (u "OPENAI_API_KEY") with
      | Some v => v
      | None => []
      end in
    if truthy (Some env_key) then env_key else []
  end.

(** [judgment == label], where [judgment] is any value of a record. *)
Definition is_str (judgment : json) (label : str) : bool :=
  match judgment with
  | JStr s => str_eqb s label
  | _ => false
  end.

Definition get_judgment_color (judgment : json) : str :=
  if is_str judgment (u "問題なし") then u "result-ok"
  else if is_str judgment (u "問題あり") then u "result-ng"
  else if is_str judgment (u "要確認") then u "result-warning"
  else u "result-error".

Definition get_judgment_emoji (judgment : json) : str :=
  if is_str judgment (u "問題なし") then u "✅"
  else if is_str judgment (u "問題あり") then u "❌"
  else if is_str judgment (u "要確認") then u "⚠️"
  else u "🔄".

Definition get_severity_class (severity : json) : str :=
  if is_str severity (u "critical") then u "issue-critical"
  else if is_str severity (u "warning") then u "issue-warning"
  else u "issue-info".

(** The record [main] appends when handling a file raised [e]. *)
Definition processing_error_result (file_name : str) (e : exn) : dict :=
  [(u "file_name", JStr file_name);
   (u "company_name", JStr (u "不明"));
   (u "judgment", JStr (u "エラー"));
   (u "issues",
    JList [JDict [(u "severity", JStr (u "critical"));
                  (u "category", JStr (u "処理エラー"));
                  (u "description", JStr (str_of_exn e))]]);
   (u "detected_elements", JDict []);
   (u "notes", JStr (u "ファイル処理中にエラーが発生しました"))].

(** The loop of [main] over the uploaded files, with the list
    [st.session_state.results] and the world of the client passed along.
    The status text and the progress bar, which do not touch the results,
    are left out; [seek(0)] is what makes [read] give the whole file. *)
Fixpoint check_files (cl : OpenAI) (prompt : str) (fz : Rasterizer)
  (uploaded_files : list UploadedFile) (results : list dict) (w : World cl)
  : list dict * World cl :=
  match uploaded_files with
  | [] => (results, w)
  | uploaded_file :: rest =>
    match process_uploaded_file fz uploaded_file with
    | Return images =>
      let (new_results, w') :=
        check_multiple_images cl prompt images (name uploaded_file) w in
      check_files cl prompt fz rest (results ++ new_results) w'
    | Raise e =>
      check_files cl prompt fz rest
        (results ++ [processing_error_result (name uploaded_file) e]) w
    end
  end.

(** [r.get("judgment") == label]. *)
Definition judgment_is (label : str) (r : dict) : bool :=
  match dict_get (u "judgment") r with
  | Some v => is_str v label
  | None => false
  end.

(** [sum(1 for r in results if r.get("judgment") == label)]. *)
Definition count_judgment (label : str) (results : list dict) : nat :=
  List.length (filter (judgment_is label) results).

(** The four numbers of the summary: total, 問題なし, 問題あり, 要確認. *)
Definition summary (results : list dict) : nat * nat * nat * nat :=
  (List.length results,
   count_judgment (u "問題なし") results,
   count_judgment (u "問題あり") results,
   count_judgment (u "要確認") results).

End App.

(** * Definitions used in the statements *)

Import FileProcessor OpenAICreativeChecker.

(** ** Outcomes of the decoder and of [check_image], call by call *)

(** A scan of [s] went well: it did not run out of recursion budget, and
    a scanned value took up at least one character of [s]. *)
Definition scan_ok (sc : scan) (s : str) : Prop :=
  sc <> Starved /\
  forall v r, sc = Scanned v r -> (List.length r < List.length s)%nat.

(** The record [check_image] returns for a given reply of the remote
    call: the body of its [try] statement with the handler applied. *)
Definition reply_record (display_name : str) (reply : result str) : dict :=
  try_except
    (content <- reply ;;
     result <- _parse_response content display_name ;;
     Return result)
    (fun e => api_error_result display_name e).

(** The page number [check_multiple_images] passes for index [i] of
    [n_images] payloads. *)
Definition page_num_of (n_images i : nat) : option nat :=
  if (1 <? n_images)%nat then Some i else None.

(** The requests sent for the payloads [rest], the first of which has
    index [i]. *)
Fixpoint requests_from (prompt file_name : str) (n_images i : nat)
  (rest : list (str * str)) : list request :=
  match rest with
  | [] => []
  | (base64_image, media_type) :: rest' =>
    request_of prompt (display_name_of file_name (page_num_of n_images i))
               media_type base64_image
    :: requests_from prompt file_name n_images (S i) rest'
  end.

(** One call of the client per request, in order, the world threaded
    through: the replies and the final world. *)
Fixpoint call_each (cl : OpenAI) (reqs : list request) (w : World cl)
  : list (result str) * World cl :=
  match reqs with
  | [] => ([], w)
  | req :: reqs' =>
    let (reply, w') := create cl req w in
    let (replies, w'') := call_each cl reqs' w' in
    (reply :: replies, w'')
  end.

(** The records for a list of replies, the first of which answers the
    payload of index [i]. *)
Fixpoint records_from (file_name : str) (n_images i : nat)
  (replies : list (result str)) : list dict :=
  match replies with
  | [] => []
  | reply :: replies' =>
    reply_record (display_name_of file_name (page_num_of n_images i)) reply
    :: records_from file_name n_images (S i) replies'
  end.

(** A record that carries the name of the file [f], with or without a
    page suffix. *)
Definition named_after (f : UploadedFile) (r : dict) : Prop :=
  exists page_num,
    dict_get (u "file_name") r = Some (JStr (display_name_of (name f) page_num)).

(** ** Test doubles and sample inputs *)

(** A test double for the client: the state of the world is the list of
    replies still to be given; the call fails once the list is used up. *)
Definition scripted : OpenAI :=
  {| World := list (result str);
     create := fun _ w =>
       match w with
       | [] => (Raise (OtherError (u "script exhausted")), [])
       | reply :: w' => (reply, w')
       end |}.

(** A test double for PyMuPDF: every document has the two pages P1 and
    P2, and a page renders to its own bytes. *)
Definition two_page_fitz : Rasterizer :=
  {| Page := list byte;
     PYMUPDF_AVAILABLE := true;
     fitz_open := fun _ => Return [[x50; x31]; [x50; x32]];
     pixmap_png := fun page => page |}.

(** Three page payloads, as the normaliser gives them for a document. *)
Definition three_pages : list (str * str) :=
  [(u "UDE=", u "image/png"); (u "UDI=", u "image/png"); (u "UDM=", u "image/png")].

(** A reply whose object follows the record layout but leaves
    [trademark_symbol] and three of the detected strings out. *)
Definition sparse_reply : str :=
  dq "```json
{'file_name': 'echo.png', 'company_name': 'ACME', 'judgment': '問題なし',
 'issues': [], 'detected_elements': {'year': '2024'}, 'notes': ''}
```".

(** A reply that is an object with a [raw_response] entry of its own. *)
Definition echo_reply : str :=
  dq "{'judgment': '問題なし', 'raw_response': 'as sent'}".

(** A test double for the disk: one picture under a path with an
    upper-case suffix, nothing else. *)
Definition one_file_disk : FileSystem :=
  {| open_rb := fun path =>
       if str_eqb path (u "img/Photo.JPG") then Return [x4d; x61; x6e]
       else Raise (OtherError (u "[Errno 2] No such file or directory")) |}.

(** * Properties *)

(** Case analysis on the first [match] in hypothesis [H]. *)
Ltac break_in H :=
  match type of H with
  | context [match ?x with _ => _ end] => destruct x eqn:?
  end.

(** Case analysis on the first [match] in any hypothesis. *)
Ltac break_hyp :=
  match goal with
  | H : context [match ?x with _ => _ end] |- _ => destruct x eqn:?
  end.

(** ** The runtime pieces on sample inputs *)

Example u_decodes_utf8 : u "問題なし" = [0x554F; 0x984C; 0x306A; 0x3057].
Proof. reflexivity. Qed.

Example str_of_nat_12 : str_of_nat 12 = u "12".
Proof. reflexivity. Qed.

Example slice_negative_stop : slice (u "abcdef") 2 (-1) = u "cde".
Proof. reflexivity. Qed.

Example find_from_start :
  find (u "ab```x") (u "```") 0 = 2%Z /\ find (u "ab```x") (u "```") 3 = (-1)%Z.
Proof. split; reflexivity. Qed.

Example strip_wide_space : strip (u "  　a b　 ") = u "a b".
Proof. reflexivity. Qed.

Example suffix_samples :
  map suffix [u "a.PNG"; u ".bashrc"; u "foo."; u "dir/b.tar.gz"; u "x.y/z"]
  = [u ".PNG"; []; []; u ".gz"; []].
Proof. reflexivity. Qed.

Example b64encode_samples :
  map b64encode [[x4d; x61; x6e]; [x4d; x61]; [x4d]]
  = [u "TWFu"; u "TWE="; u "TQ=="].
Proof. reflexivity. Qed.

Example json_loads_accepts :
  json_loads (dq "{'a': [1, 2.5e3, true, null], 'b': {'c': 'x\n'}, 'a': -7}")
  = Some (JDict [(u "a", JInt (-7));
                 (u "b", JDict [(u "c", JStr (u "x" ++ [0x0A]))])])
  /\ json_loads (u " [1, 2 ] ") = Some (JList [JInt 1; JInt 2])
  /\ json_loads (dq "'\ud83d\ude00'") = Some (JStr [0x1F600])
  /\ json_loads (u "-Infinity") = Some (JFloat (u "-Infinity")).
Proof. repeat split; vm_compute; reflexivity. Qed.

Example json_loads_rejects :
  map json_loads [u ""; u "[1,]"; u "01"; u "1."; u "nul"; dq "{'a':1,}";
                  dq "{'a' 1}"; dq "'abc"; u "{} x"; u "問題なし"]
  = [None; None; None; None; None; None; None; None; None; None].
Proof. vm_compute. reflexivity. Qed.

(** ** Strings *)

Section StrFacts.

Lemma str_eqb_eq (a b : str) : str_eqb a b = true <-> a = b.
Proof.
  revert b. induction a as [|x a IH]; destruct b as [|y b]; simpl;
    try (split; [discriminate | congruence]); [tauto|].
  rewrite andb_true_iff, N.eqb_eq, IH. split.
  - intros [-> ->]. reflexivity.
  - intros E. injection E as -> ->. tauto.
Qed.

Lemma str_eqb_refl (a : str) : str_eqb a a = true.
Proof. now apply str_eqb_eq. Qed.

Lemma str_eqb_neq (a b : str) : a <> b -> str_eqb a b = false.
Proof.
  intros H. destruct (str_eqb a b) eqn:E; [|reflexivity].
  apply str_eqb_eq in E. contradiction.
Qed.

(** [startswith] is the prefix relation. *)
Lemma startswith_spec (p s : str) :
  startswith p s = true <-> exists t, s = p ++ t.
Proof.
  revert s. induction p as [|a p IH]; intros s; simpl.
  - split; [intros _; now exists s | reflexivity].
  - destruct s as [|b s].
    + split; [discriminate | intros [t Ht]; discriminate].
    + rewrite andb_true_iff, N.eqb_eq, IH. split.
      * intros [-> [t ->]]. now exists t.
      * intros [t Ht]. injection Ht as -> ->. split; [reflexivity | now exists t].
Qed.

(** [contains] is the literal substring relation. *)
Lemma contains_spec (sub s : str) :
  contains sub s = true <-> exists pre post, s = pre ++ sub ++ post.
Proof.
  induction s as [|c s IH].
  - simpl. rewrite orb_false_r, startswith_spec. split.
    + intros [t Ht]. now exists [], t.
    + intros [pre [post H]]. destruct pre; [now exists post | discriminate].
  - cbn [contains]. rewrite orb_true_iff, IH, startswith_spec. split.
    + intros [[t Ht] | [pre [post H]]].
      * now exists [], t.
      * exists (c :: pre), post. simpl. now rewrite H.
    + intros [pre [post H]]. destruct pre as [|x pre].
      * left. now exists post.
      * right. injection H as _ H. now exists pre, post.
Qed.

Lemma find_at_lower (sub s : str) (i : Z) :
  (-1 <= i)%Z -> (-1 <= find_at sub s i)%Z.
Proof.
  revert i. induction s as [|c s IH]; intros i Hi; simpl;
    destruct (startswith sub _); try lia.
  apply IH. lia.
Qed.

(** [find_at] fails exactly when [contains] says no. *)
Lemma find_at_none (sub s : str) (i : Z) :
  (0 <= i)%Z -> (find_at sub s i = (-1)%Z <-> contains sub s = false).
Proof.
  revert i. induction s as [|c s IH]; intros i Hi; cbn [find_at contains];
    destruct (startswith sub _); simpl.
  - split; [lia | discriminate].
  - tauto.
  - split; [lia | discriminate].
  - apply IH. lia.
Qed.

(** A successful [find_at] points at an occurrence, and no occurrence
    starts before it. *)
Lemma find_at_found (sub s : str) (i k : Z) :
  (0 <= i)%Z -> find_at sub s i = k -> (0 <= k)%Z ->
  exists pre post, s = pre ++ sub ++ post /\ k = (i + len pre)%Z.
Proof.
  revert i. induction s as [|c s IH]; intros i Hi H Hk; cbn [find_at] in H.
  - destruct (startswith sub []) eqn:E; [|lia].
    apply startswith_spec in E as [t Ht].
    exists [], t. split; [exact Ht | unfold len; simpl; lia].
  - destruct (startswith sub (c :: s)) eqn:E.
    + apply startswith_spec in E as [t Ht].
      exists [], t. split; [exact Ht | unfold len; simpl; lia].
    + assert (Hi' : (0 <= i + 1)%Z) by lia.
      destruct (IH _ Hi' H Hk) as [pre [post [Hs Hk']]].
      exists (c :: pre), post. split; [simpl; now rewrite Hs|].
      unfold len in *. cbn [List.length]. lia.
Qed.

Lemma find_lower (s sub : str) (start : Z) : (-1 <= find s sub start)%Z.
Proof.
  unfold find. destruct (Z.ltb _ _); [lia|].
  apply find_at_lower. destruct (start <? 0)%Z eqn:E; [lia|].
  apply Z.ltb_ge in E. lia.
Qed.

(** [find] from the start fails exactly when [contains] says no. *)
Lemma find_none (s sub : str) :
  find s sub 0 = (-1)%Z <-> contains sub s = false.
Proof.
  unfold find. simpl.
  replace (len s <? 0)%Z with false
    by (symmetry; apply Z.ltb_ge; unfold len; lia).
  simpl. apply find_at_none. lia.
Qed.

(** A slice that ends at index [-1] drops the last character of what
    starts at [start]. *)
Lemma slice_to_minus_one (s : str) (start : Z) :
  (0 <= start)%Z ->
  slice s start (-1) = removelast (skipn (Z.to_nat start) s).
Proof.
  intros H. unfold slice, slice_index.
  replace (start <? 0)%Z with false by (symmetry; apply Z.ltb_ge; lia).
  replace (-1 <? 0)%Z with true by reflexivity.
  rewrite removelast_firstn_len, length_skipn.
  unfold len. destruct (Z_lt_ge_dec start (Z.of_nat (List.length s))) as [L|L].
  - rewrite Z.min_l by lia. f_equal. lia.
  - rewrite Z.min_r by lia. rewrite Nat2Z.id.
    rewrite !skipn_all2 by lia. now rewrite !firstn_nil.
Qed.

End StrFacts.

(** ** The decoder always comes to an end *)

Section DecoderFacts.

Lemma skip_ws_length (s : str) : (List.length (skip_ws s) <= List.length s)%nat.
Proof.
  induction s as [|c s IH]; simpl; [lia|].
  destruct (is_json_ws c); simpl; lia.
Qed.

Lemma span_digits_length (s ds r : str) :
  span_digits s = (ds, r) -> (List.length r <= List.length s)%nat.
Proof.
  revert ds r. induction s as [|c s IH]; intros ds r H; simpl in H.
  - injection H as <- <-. simpl. lia.
  - destruct (is_digit c).
    + destruct (span_digits s) as [ds' r'] eqn:E.
      injection H as <- <-. specialize (IH _ _ eq_refl). simpl. lia.
    + injection H as <- <-. simpl. lia.
Qed.

(** A string literal takes up at least its closing quotation mark. *)
Lemma scanstring_length (s x r : str) :
  scanstring s = Some (x, r) -> (List.length r < List.length s)%nat.
Proof.
  remember (List.length s) as n eqn:Hn.
  assert (Hle : (List.length s <= n)%nat) by lia. clear Hn.
  revert s x r Hle.
  induction n as [|n IH]; intros s x r Hle H.
  - destruct s; [discriminate | simpl in Hle; lia].
  - destruct s as [|c s']; [discriminate|].
    cbn [scanstring] in H. cbn [List.length] in *.
    repeat (break_in H; try discriminate);
      repeat match goal with
             | E : scanstring ?t = Some (_, _) |- _ =>
               apply IH in E; [|cbn [List.length] in *; lia]
             end;
      try (injection H as <- <-); subst;
      cbn [List.length] in *; lia.
Qed.

Lemma skipn_shorter (n : nat) (s : str) :
  (0 < n)%nat -> s <> [] -> (List.length (skipn n s) < List.length s)%nat.
Proof.
  intros Hn Hs. rewrite length_skipn.
  destruct s; [congruence | cbn [List.length]; lia].
Qed.

Lemma match_number_length (s : str) (v : json) (r : str) :
  match_number s = Some (v, r) -> (List.length r < List.length s)%nat.
Proof.
  unfold match_number. intros H.
  repeat (break_hyp; try discriminate);
    repeat match goal with
           | E : span_digits _ = (_, _) |- _ => apply span_digits_length in E
           | E : (_, _) = (_, _) |- _ => inversion E; clear E; subst
           | E : Some _ = Some _ |- _ => inversion E; clear E; subst
           end;
    cbn [List.length] in *; lia.
Qed.

(** A scanned atom takes up at least one character. *)
Lemma scan_atom_length (s : str) (v : json) (r : str) :
  scan_atom s = Some (v, r) -> (List.length r < List.length s)%nat.
Proof.
  unfold scan_atom. intros H.
  destruct s as [|c s']; [discriminate|].
  assert (Hs : c :: s' <> []) by discriminate.
  assert (Hskip : forall n w,
            Some (w, skipn n (c :: s')) = Some (v, r) -> (0 < n)%nat ->
            (List.length r < List.length (c :: s'))%nat).
  { intros n w E Hn. assert (r = skipn n (c :: s')) by congruence. subst r.
    now apply skipn_shorter. }
  destruct (c =? quote).
  { destruct (scanstring s') as [[x rest]|] eqn:E; [|discriminate].
    apply scanstring_length in E.
    assert (r = rest) by congruence. subst. cbn [List.length]. lia. }
  destruct (startswith (u "null") _); [apply (Hskip _ _ H); lia|].
  destruct (startswith (u "true") _); [apply (Hskip _ _ H); lia|].
  destruct (startswith (u "false") _); [apply (Hskip _ _ H); lia|].
  destruct (match_number (c :: s')) as [[w rest]|] eqn:E.
  { apply match_number_length in E. assert (r = rest) by congruence. now subst. }
  destruct (startswith (u "NaN") _); [apply (Hskip _ _ H); lia|].
  destruct (startswith (u "Infinity") _); [apply (Hskip _ _ H); lia|].
  destruct (startswith (u "-Infinity") _); [apply (Hskip _ _ H); lia|].
  discriminate.
Qed.

Lemma scan_ok_Invalid (s : str) : scan_ok Invalid s.
Proof. split; [discriminate | intros; discriminate]. Qed.

Lemma scan_ok_Scanned (v : json) (r s : str) :
  (List.length r < List.length s)%nat -> scan_ok (Scanned v r) s.
Proof.
  intros H. split; [discriminate|].
  intros v' r' E. injection E as _ <-. exact H.
Qed.

Lemma scan_ok_longer (sc : scan) (s' s : str) :
  scan_ok sc s' -> (List.length s' <= List.length s)%nat -> scan_ok sc s.
Proof.
  intros [H1 H2] Hle. split; [exact H1|].
  intros v r E. specialize (H2 v r E). lia.
Qed.

(** With a budget of twice the length of the text (and one or two more),
    none of the three mutually recursive scanners runs out. *)
Lemma scan_budget (fuel : nat) :
  (forall s, (2 * List.length s + 1 <= fuel)%nat -> scan_ok (scan_once fuel s) s) /\
  (forall s values, (2 * List.length s + 2 <= fuel)%nat ->
     scan_ok (JSONArray_loop fuel s values) s) /\
  (forall s pairs, (2 * List.length s + 2 <= fuel)%nat ->
     scan_ok (JSONObject_loop fuel s pairs) s).
Proof.
  induction fuel as [|fuel [IHonce [IHarr IHobj]]].
  - repeat split; intros; lia.
  - split; [|split].
    + intros s Hf. destruct s as [|c r]; [apply scan_ok_Invalid|].
      cbn [scan_once]. cbn [List.length] in Hf.
      destruct (c =? ch "{").
      { destruct (skip_ws r) as [|c1 r1] eqn:E; [apply scan_ok_Invalid|].
        pose proof (skip_ws_length r) as L. rewrite E in L. cbn [List.length] in L.
        destruct (c1 =? ch "}").
        { apply scan_ok_Scanned. cbn [List.length]. lia. }
        destruct (c1 =? quote); [|apply scan_ok_Invalid].
        apply scan_ok_longer with (s' := r1); [apply IHobj; lia|].
        cbn [List.length]. lia. }
      destruct (c =? ch "[").
      { destruct (skip_ws r) as [|c1 r1] eqn:E; [apply scan_ok_Invalid|].
        pose proof (skip_ws_length r) as L. rewrite E in L. cbn [List.length] in L.
        destruct (c1 =? ch "]").
        { apply scan_ok_Scanned. cbn [List.length]. lia. }
        apply scan_ok_longer with (s' := c1 :: r1);
          [apply IHarr|]; cbn [List.length]; lia. }
      destruct (scan_atom (c :: r)) as [[v rest]|] eqn:E; [|apply scan_ok_Invalid].
      apply scan_ok_Scanned. now apply scan_atom_length in E.
    + intros s values Hf. cbn [JSONArray_loop].
      destruct (IHonce s ltac:(lia)) as [Hns Hlen].
      destruct (scan_once fuel s) as [v r| |]; [|apply scan_ok_Invalid|congruence].
      specialize (Hlen v r eq_refl).
      destruct (skip_ws r) as [|c r1] eqn:E; [apply scan_ok_Invalid|].
      pose proof (skip_ws_length r) as L. rewrite E in L. cbn [List.length] in L.
      destruct (c =? ch "]"); [apply scan_ok_Scanned; lia|].
      destruct (c =? ch ","); [|apply scan_ok_Invalid].
      pose proof (skip_ws_length r1) as L1.
      apply scan_ok_longer with (s' := skip_ws r1); [apply IHarr|]; lia.
    + intros s pairs Hf. cbn [JSONObject_loop].
      destruct (scanstring s) as [[key r]|] eqn:Ek; [|apply scan_ok_Invalid].
      apply scanstring_length in Ek.
      destruct (skip_ws r) as [|c r1] eqn:E; [apply scan_ok_Invalid|].
      pose proof (skip_ws_length r) as L. rewrite E in L. cbn [List.length] in L.
      destruct (c =? ch ":"); [|apply scan_ok_Invalid].
      pose proof (skip_ws_length r1) as L1.
      destruct (IHonce (skip_ws r1) ltac:(lia)) as [Hns Hlen].
      destruct (scan_once fuel (skip_ws r1)) as [v r2| |];
        [|apply scan_ok_Invalid|congruence].
      specialize (Hlen v r2 eq_refl).
      destruct (skip_ws r2) as [|c2 r3] eqn:E2; [apply scan_ok_Invalid|].
      pose proof (skip_ws_length r2) as L2. rewrite E2 in L2.
      cbn [List.length] in L2.
      destruct (c2 =? ch "}"); [apply scan_ok_Scanned; lia|].
      destruct (c2 =? ch ","); [|apply scan_ok_Invalid].
      destruct (skip_ws r3) as [|q r4] eqn:E3; [apply scan_ok_Invalid|].
      pose proof (skip_ws_length r3) as L3. rewrite E3 in L3.
      cbn [List.length] in L3.
      destruct (q =? quote); [|apply scan_ok_Invalid].
      apply scan_ok_longer with (s' := r4); [apply IHobj|]; lia.
Qed.

(** [scan_once] never uses up the budget [json_loads] gives it. *)
Lemma scan_once_never_starved (s : str) : scan_once (budget s) s <> Starved.
Proof.
  destruct (scan_budget (budget s)) as [H _].
  apply (H s). unfold budget. lia.
Qed.

(** Hence [json_loads] gives [None] only where Python raises
    [JSONDecodeError]: the text does not start with a JSON value, or
    something other than whitespace follows the value. *)
Lemma json_loads_None (s : str) :
  json_loads s = None <->
  scan_once (budget (skip_ws s)) (skip_ws s) = Invalid \/
  exists v rest,
    scan_once (budget (skip_ws s)) (skip_ws s) = Scanned v rest /\
    skip_ws rest <> [].
Proof.
  unfold json_loads.
  pose proof (scan_once_never_starved (skip_ws s)) as Hns.
  destruct (scan_once (budget (skip_ws s)) (skip_ws s)) as [v r| |];
    [|split; [now left | reflexivity]|congruence].
  destruct (skip_ws r) as [|c t'] eqn:E.
  - split; [discriminate|].
    intros [H | [v' [rest [H Hne]]]]; [discriminate|].
    injection H as _ <-. congruence.
  - split; [|reflexivity]. intros _. right.
    exists v, r. split; [reflexivity|]. now rewrite E.
Qed.

End DecoderFacts.

(** ** Dictionaries *)

Section DictFacts.

Lemma dict_get_set_same (d : dict) (k : str) (v : json) :
  dict_get k (dict_set d k v) = Some v.
Proof.
  induction d as [|[k' v'] d IH]; simpl.
  - now rewrite str_eqb_refl.
  - destruct (str_eqb k' k) eqn:E; simpl; rewrite E; [reflexivity | exact IH].
Qed.

Lemma dict_get_set_other (d : dict) (k k0 : str) (v : json) :
  k0 <> k -> dict_get k0 (dict_set d k v) = dict_get k0 d.
Proof.
  intros Hne. induction d as [|[k' v'] d IH]; simpl.
  - rewrite str_eqb_neq; [reflexivity | congruence].
  - destruct (str_eqb k' k) eqn:E; simpl.
    + apply str_eqb_eq in E. subst k'.
      rewrite str_eqb_neq; [reflexivity | congruence].
    + destruct (str_eqb k' k0); [reflexivity | exact IH].
Qed.

(** Assignment to a key keeps the keys that were there, in their order. *)
Lemma dict_set_keys (d : dict) (k : str) (v : json) :
  map fst (dict_set d k v)
  = if dict_has k d then map fst d else map fst d ++ [k].
Proof.
  unfold dict_has. induction d as [|[k' v'] d IH]; simpl; [reflexivity|].
  destruct (str_eqb k' k) eqn:E; simpl; [reflexivity|].
  rewrite IH. now destruct (dict_get k d).
Qed.

End DictFacts.

(** ** The response parser *)

Section ParserFacts.

(** The three ways [_parse_response] can end: the fallback record when the
    candidate text is no JSON, the decoded object with its [file_name]
    stamped, or a [TypeError] when the candidate decodes to something that
    is not an object. *)
Lemma _parse_response_cases (content file_name : str) :
  match json_loads (json_str content) with
  | None =>
    _parse_response content file_name
    = Return (_create_fallback_result content file_name)
  | Some (JDict d) =>
    _parse_response content file_name
    = Return (dict_set d (u "file_name") (JStr file_name))
  | Some _ =>
    exists msg, _parse_response content file_name = Raise (TypeError msg)
  end.
Proof.
  unfold _parse_response.
  destruct (json_loads (json_str content)) as [[| | | | | |]|];
    simpl; eauto.
Qed.

(** C1, evaluated on the code: a reply that is the JSON number 42, and a
    fenced reply that holds a JSON list, both decode without error, and
    the assignment of [file_name] to the decoded value then raises a
    [TypeError] that [_parse_response] does not catch.  No record is
    returned and the fallback path is not taken. *)
Theorem _parse_response_raises_on_non_object :
  _parse_response (u "42") (u "photo.png")
  = Raise (TypeError (u "'int' object does not support item assignment"))
  /\ _parse_response (u "```json [1, 2] ```") (u "photo.png")
     = Raise (TypeError (u "list indices must be integers or slices, not str")).
Proof. split; vm_compute; reflexivity. Qed.

(** C2 as amended: when the candidate decodes to an object, the result
    is that object with [file_name] set to the display name (replaced in
    place, or added last when the object had none); every other key keeps
    its decoded value, and an absent key stays absent: nothing is filled
    in. *)
Theorem _parse_response_structured (content file_name : str) (d : dict) :
  json_loads (json_str content) = Some (JDict d) ->
  _parse_response content file_name
  = Return (dict_set d (u "file_name") (JStr file_name))
  /\ dict_get (u "file_name") (dict_set d (u "file_name") (JStr file_name))
     = Some (JStr file_name)
  /\ (forall k, k <> u "file_name" ->
        dict_get k (dict_set d (u "file_name") (JStr file_name)) = dict_get k d)
  /\ map fst (dict_set d (u "file_name") (JStr file_name))
     = if dict_has (u "file_name") d then map fst d
       else map fst d ++ [u "file_name"].
Proof.
  intros H. unfold _parse_response. rewrite H. simpl.
  split; [reflexivity|]. split; [apply dict_get_set_same|].
  split; [intros k Hk; now apply dict_get_set_other | apply dict_set_keys].
Qed.

Lemma _parse_response_structured_witness :
  json_loads (json_str sparse_reply)
  = Some (JDict [(u "file_name", JStr (u "echo.png"));
                 (u "company_name", JStr (u "ACME"));
                 (u "judgment", JStr (u "問題なし"));
                 (u "issues", JList []);
                 (u "detected_elements", JDict [(u "year", JStr (u "2024"))]);
                 (u "notes", JStr [])])
  /\ _parse_response sparse_reply (u "photo.png")
     = Return [(u "file_name", JStr (u "photo.png"));
               (u "company_name", JStr (u "ACME"));
               (u "judgment", JStr (u "問題なし"));
               (u "issues", JList []);
               (u "detected_elements", JDict [(u "year", JStr (u "2024"))]);
               (u "notes", JStr [])].
Proof.
  assert (H : json_loads (json_str sparse_reply)
              = Some (JDict [(u "file_name", JStr (u "echo.png"));
                 (u "company_name", JStr (u "ACME"));
                 (u "judgment", JStr (u "問題なし"));
                 (u "issues", JList []);
                 (u "detected_elements", JDict [(u "year", JStr (u "2024"))]);
                 (u "notes", JStr [])])) by (vm_compute; reflexivity).
  split; [exact H|].
  exact (proj1 (_parse_response_structured sparse_reply (u "photo.png") _ H)).
Defined.

(** C2 as stated fails: the object in [sparse_reply] decodes and has the
    record's layout, yet in the returned record [detected_elements] is
    still the one-entry object of the reply: [trademark_symbol] is not
    [false] but missing, and [issuer] is not [null] but missing. *)
Lemma _parse_response_fills_no_defaults :
  exists r elements,
    _parse_response sparse_reply (u "photo.png") = Return r
    /\ dict_get (u "detected_elements") r = Some (JDict elements)
    /\ dict_get (u "trademark_symbol") elements <> Some (JBool false)
    /\ dict_get (u "trademark_symbol") elements = None
    /\ dict_get (u "issuer") elements <> Some JNull
    /\ dict_get (u "issuer") elements = None.
Proof.
  eexists. eexists.
  split; [vm_compute; reflexivity|].
  split; [vm_compute; reflexivity|].
  repeat split; try (vm_compute; reflexivity); vm_compute; discriminate.
Qed.

End ParserFacts.

(** ** The fallback record *)

Section FallbackFacts.

Lemma fallback_judgment_entry (content file_name : str) :
  dict_get (u "judgment") (_create_fallback_result content file_name)
  = Some (JStr (if contains (u "問題なし") content then u "問題なし"
                else if contains (u "問題あり") content
                        || contains (u "禁止") content
                        || contains (u "不合格") content then u "問題あり"
                else u "要確認")).
Proof. reflexivity. Qed.

(** C3: on the fallback path (the candidate text is no JSON) the
    judgment comes from substring search in the whole reply, in a fixed
    order: the marker 問題なし (no problem) gives 問題なし (Clean) whatever
    else the text holds, in particular when 問題あり is there too;
    otherwise one of 問題あり (has problem), 禁止 (prohibited), 不合格
    (failed) gives 問題あり (Violation); otherwise the judgment is 要確認
    (NeedsReview).  It is never エラー (Error). *)
Theorem fallback_judgment_precedence (content file_name : str) :
  json_loads (json_str content) = None ->
  exists r,
    _parse_response content file_name = Return r
    /\ (contains (u "問題なし") content = true ->
        dict_get (u "judgment") r = Some (JStr (u "問題なし")))
    /\ (contains (u "問題なし") content = true ->
        contains (u "問題あり") content = true ->
        dict_get (u "judgment") r = Some (JStr (u "問題なし")))
    /\ (contains (u "問題なし") content = false ->
        contains (u "問題あり") content = true
        \/ contains (u "禁止") content = true
        \/ contains (u "不合格") content = true ->
        dict_get (u "judgment") r = Some (JStr (u "問題あり")))
    /\ (contains (u "問題なし") content = false ->
        contains (u "問題あり") content = false ->
        contains (u "禁止") content = false ->
        contains (u "不合格") content = false ->
        dict_get (u "judgment") r = Some (JStr (u "要確認")))
    /\ dict_get (u "judgment") r <> Some (JStr (u "エラー")).
Proof.
  intros H. exists (_create_fallback_result content file_name).
  split; [unfold _parse_response; now rewrite H|].
  rewrite fallback_judgment_entry.
  repeat split.
  - now intros ->.
  - now intros ->.
  - intros -> [-> | [-> | ->]]; [reflexivity| |];
      now rewrite ?orb_true_r.
  - now intros -> -> -> ->.
  - destruct (contains (u "問題なし") content); [vm_compute; discriminate|].
    destruct (_ || _); vm_compute; discriminate.
Qed.

Lemma fallback_judgment_precedence_witness :
  exists r,
    _parse_response (u "問題なし。ただし一部に問題ありの可能性") (u "photo.png")
    = Return r
    /\ dict_get (u "judgment") r = Some (JStr (u "問題なし")).
Proof.
  destruct (fallback_judgment_precedence
              (u "問題なし。ただし一部に問題ありの可能性") (u "photo.png"))
    as [r [Hr [_ [Hboth _]]]].
  - vm_compute. reflexivity.
  - exists r. split; [exact Hr|].
    apply Hboth; vm_compute; reflexivity.
Defined.

(** C4: on the fallback path the record has exactly one issue, with
    severity info and category パースエラー (parse error); [notes] and
    [raw_response] are the whole reply, unchanged; the company name is 不明
    (unknown); and [detected_elements] holds [null] for the four strings
    and [false] for [trademark_symbol]. *)
Theorem fallback_record_shape (content file_name : str) :
  json_loads (json_str content) = None ->
  exists r,
    _parse_response content file_name = Return r
    /\ dict_get (u "issues") r
       = Some (JList [JDict [(u "severity", JStr (u "info"));
                             (u "category", JStr (u "パースエラー"));
                             (u "description",
                              JStr (u "JSON形式での解析に失敗しました。以下の生テキストを確認してください。"))]])
    /\ dict_get (u "notes") r = Some (JStr content)
    /\ dict_get (u "raw_response") r = Some (JStr content)
    /\ dict_get (u "company_name") r = Some (JStr (u "不明"))
    /\ dict_get (u "detected_elements") r
       = Some (JDict [(u "year", JNull);
                      (u "issuer", JNull);
                      (u "ranking_name", JNull);
                      (u "position", JNull);
                      (u "trademark_symbol", JBool false)])
    /\ dict_get (u "file_name") r = Some (JStr file_name)
    /\ map fst r = [u "file_name"; u "company_name"; u "judgment"; u "issues";
                    u "detected_elements"; u "notes"; u "raw_response"].
Proof.
  intros H. exists (_create_fallback_result content file_name).
  split; [unfold _parse_response; now rewrite H|].
  repeat split.
Qed.

Lemma fallback_record_shape_witness :
  exists r,
    _parse_response (u "The image looks fine. 問題なし") (u "photo.png") = Return r
    /\ dict_get (u "raw_response") r
       = Some (JStr (u "The image looks fine. 問題なし")).
Proof.
  destruct (fallback_record_shape
              (u "The image looks fine. 問題なし") (u "photo.png"))
    as [r [Hr [_ [_ [Hraw _]]]]].
  - vm_compute. reflexivity.
  - exists r. split; [exact Hr | exact Hraw].
Defined.

End FallbackFacts.

(** ** Extraction of the candidate text *)

Section ExtractionFacts.

Lemma find_at_unfold (sub s : str) (i : Z) :
  find_at sub s i
  = if startswith sub s then i
    else match s with
         | [] => (-1)%Z
         | _ :: s' => find_at sub s' (i + 1)%Z
         end.
Proof. destruct s; reflexivity. Qed.

(** A prefix of [a ++ b] that is no longer than [a] is a prefix of [a]. *)
Lemma startswith_trunc (p a b : str) :
  startswith p (a ++ b) = true -> (List.length p <= List.length a)%nat ->
  startswith p a = true.
Proof.
  revert a. induction p as [|x p IH]; intros a H L; [reflexivity|].
  destruct a as [|y a]; [simpl in L; lia|].
  simpl in *. apply andb_true_iff in H as [-> H].
  apply IH; [exact H | lia].
Qed.

(** When no occurrence of [sub] starts inside [pre], the search finds the
    one right after [pre]. *)
Lemma find_at_first (sub pre body : str) (i : Z) :
  sub <> [] ->
  contains sub (pre ++ removelast sub) = false ->
  find_at sub (pre ++ sub ++ body) i = (i + len pre)%Z.
Proof.
  intros Hsub. revert i. induction pre as [|c pre IH]; intros i H.
  - rewrite find_at_unfold. simpl app.
    replace (startswith sub (sub ++ body)) with true
      by (symmetry; apply startswith_spec; now exists body).
    unfold len. simpl. lia.
  - simpl app in H. cbn [contains] in H.
    apply orb_false_iff in H as [Hs Hc].
    rewrite find_at_unfold. simpl app.
    destruct (startswith sub (c :: pre ++ sub ++ body)) eqn:E.
    + exfalso.
      assert (Heq : c :: pre ++ sub ++ body
                    = (c :: pre ++ removelast sub) ++ [last sub 0] ++ body).
      { rewrite (app_removelast_last 0 Hsub) at 1.
        simpl. now rewrite <- !app_assoc. }
      pose proof (f_equal (@List.length _) (app_removelast_last 0 Hsub)) as L.
      rewrite length_app in L. cbn [List.length] in L.
      rewrite Heq in E. apply startswith_trunc in E; [congruence|].
      cbn [List.length]. rewrite length_app. unfold str, char in *. lia.
    + rewrite IH by exact Hc. unfold len. cbn [List.length]. lia.
Qed.

(** The slice taken after an opening fence [op] that no closing fence
    follows. *)
Lemma slice_after_unclosed (op pre body : str) :
  op <> [] ->
  contains op (pre ++ removelast op) = false ->
  contains (u "```") body = false ->
  let content := pre ++ op ++ body in
  let json_start := (find content op 0 + len op)%Z in
  json_start = len (pre ++ op)
  /\ find content (u "```") json_start = (-1)%Z
  /\ slice content json_start (find content (u "```") json_start)
     = removelast body.
Proof.
  intros Hop Hpre Hbody content json_start.
  assert (Hfind : find content op 0 = len pre).
  { unfold find. simpl Z.ltb. cbv iota.
    replace (len content <? 0)%Z with false
      by (symmetry; apply Z.ltb_ge; unfold len; lia).
    simpl. unfold content. now rewrite find_at_first. }
  assert (Hstart : json_start = len (pre ++ op)).
  { unfold json_start. rewrite Hfind. unfold len. rewrite length_app. lia. }
  assert (Hskip : skipn (Z.to_nat json_start) content = body).
  { rewrite Hstart. unfold len. rewrite Nat2Z.id. unfold content.
    rewrite app_assoc. rewrite skipn_app, skipn_all, Nat.sub_diag. reflexivity. }
  assert (Hend : find content (u "```") json_start = (-1)%Z).
  { unfold find.
    replace (json_start <? 0)%Z with false
      by (symmetry; apply Z.ltb_ge; rewrite Hstart; unfold len; lia).
    replace (len content <? json_start)%Z with false.
    - rewrite Hskip. apply find_at_none; [rewrite Hstart; unfold len; lia|].
      exact Hbody.
    - symmetry. apply Z.ltb_ge. rewrite Hstart. unfold content, len.
      rewrite !length_app. lia. }
  split; [exact Hstart|]. split; [exact Hend|].
  rewrite Hend, slice_to_minus_one, Hskip; [reflexivity|].
  rewrite Hstart. unfold len. lia.
Qed.

(** C10: let the reply be [pre], then the opening fence, then [body],
    where the fence is the first ```json of the reply (or, when the reply
    has no ```json at all, its first ```), and let no ``` occur in [body],
    so that the search for the closing fence gives [-1].  Then the text
    handed to the decoder is [body] without its last character, stripped
    of surrounding whitespace. *)
Theorem json_str_unclosed_fence (pre body : str) :
  (contains (u "```json") (pre ++ u "```jso") = false ->
   contains (u "```") body = false ->
   find (pre ++ u "```json" ++ body) (u "```")
        (find (pre ++ u "```json" ++ body) (u "```json") 0 + 7) = (-1)%Z
   /\ json_str (pre ++ u "```json" ++ body) = strip (removelast body))
  /\
  (contains (u "```json") (pre ++ u "```" ++ body) = false ->
   contains (u "```") (pre ++ u "``") = false ->
   contains (u "```") body = false ->
   find (pre ++ u "```" ++ body) (u "```")
        (find (pre ++ u "```" ++ body) (u "```") 0 + 3) = (-1)%Z
   /\ json_str (pre ++ u "```" ++ body) = strip (removelast body)).
Proof.
  split.
  - intros Hpre Hbody.
    destruct (slice_after_unclosed (u "```json") pre body) as [_ [Hend Hslice]];
      [discriminate | exact Hpre | exact Hbody |].
    split; [exact Hend|].
    unfold json_str.
    replace (contains (u "```json") (pre ++ u "```json" ++ body)) with true
      by (symmetry; apply contains_spec; now exists pre, body).
    change (len (u "```json")) with 7%Z in Hslice. now rewrite Hslice.
  - intros Hno Hpre Hbody.
    destruct (slice_after_unclosed (u "```") pre body) as [_ [Hend Hslice]];
      [discriminate | exact Hpre | exact Hbody |].
    split; [exact Hend|].
    unfold json_str. rewrite Hno.
    replace (contains (u "```") (pre ++ u "```" ++ body)) with true
      by (symmetry; apply contains_spec; now exists pre, body).
    change (len (u "```")) with 3%Z in Hslice. now rewrite Hslice.
Qed.

Lemma json_str_unclosed_fence_witness :
  json_str (u "Result: ```json {1} tail") = u "{1} tai"
  /\ json_str (u "Result: ``` {1} tail ") = u "{1} tail".
Proof.
  split.
  - apply (proj1 (json_str_unclosed_fence (u "Result: ") (u " {1} tail")));
      vm_compute; reflexivity.
  - apply (proj2 (json_str_unclosed_fence (u "Result: ") (u " {1} tail ")));
      vm_compute; reflexivity.
Defined.

End ExtractionFacts.

(** ** One image: [check_image] *)

Section CheckImageFacts.

Variable cl : OpenAI.
Variable prompt : str.

Lemma check_image_record (base64_image media_type file_name : str)
  (page_num : option nat) (w : World cl) :
  let display_name := display_name_of file_name page_num in
  let call := create cl (request_of prompt display_name media_type base64_image) w in
  check_image cl prompt base64_image media_type file_name page_num w
  = (reply_record display_name (fst call), snd call).
Proof.
  unfold check_image. cbv zeta.
  destruct (create cl _ w) as [reply w']. reflexivity.
Qed.

(** The four ways a record comes about. *)
Lemma reply_record_cases (display_name : str) (reply : result str) :
  match reply with
  | Raise e => reply_record display_name reply = api_error_result display_name e
  | Return content =>
    match json_loads (json_str content) with
    | None =>
      reply_record display_name reply
      = _create_fallback_result content display_name
    | Some (JDict d) =>
      reply_record display_name reply
      = dict_set d (u "file_name") (JStr display_name)
    | Some _ =>
      exists msg,
        reply_record display_name reply
        = api_error_result display_name (TypeError msg)
    end
  end.
Proof.
  destruct reply as [content|e]; [|reflexivity].
  unfold reply_record, _parse_response. simpl.
  destruct (json_loads (json_str content)) as [[| | | | | |]|];
    simpl; eauto.
Qed.

(** Whatever the reply, the record carries the display name. *)
Lemma reply_record_file_name (display_name : str) (reply : result str) :
  dict_get (u "file_name") (reply_record display_name reply)
  = Some (JStr display_name).
Proof.
  pose proof (reply_record_cases display_name reply) as H.
  destruct reply as [content|e]; [|now rewrite H].
  destruct (json_loads (json_str content)) as [[| | | | | |d]|].
  1-6: destruct H as [msg ->]; reflexivity.
  - rewrite H. apply dict_get_set_same.
  - rewrite H. reflexivity.
Qed.

(** X1: [check_image] never raises and calls the client once: a failure of
    the remote call, and equally a [TypeError] of the parser on a reply
    that decodes to something other than an object, ends in the record of
    the exception handler. *)
Theorem check_image_absorbs_exceptions (base64_image media_type file_name : str)
  (page_num : option nat) (w : World cl) :
  let display_name := display_name_of file_name page_num in
  let call := create cl (request_of prompt display_name media_type base64_image) w in
  let run := check_image cl prompt base64_image media_type file_name page_num w in
  snd run = snd call
  /\ (forall e, fst call = Raise e ->
        fst run = api_error_result display_name e)
  /\ (forall content v,
        fst call = Return content ->
        json_loads (json_str content) = Some v ->
        (forall d, v <> JDict d) ->
        exists msg, fst run = api_error_result display_name (TypeError msg)).
Proof.
  cbv zeta. rewrite check_image_record. cbn [fst snd].
  split; [reflexivity|]. split.
  - intros e ->. reflexivity.
  - intros content v Hc Hv Hnd.
    pose proof (reply_record_cases (display_name_of file_name page_num)
                  (fst (create cl (request_of prompt
                     (display_name_of file_name page_num) media_type
                     base64_image) w))) as H.
    rewrite Hc in H |- *. rewrite Hv in H.
    destruct v as [| | | | | |d]; try exact H.
    now destruct (Hnd d).
Qed.

End CheckImageFacts.

(** A reply that is the JSON number 42 comes back from [check_image] as a
    record of the error path, its issue worded as a failure of the API
    call. *)
Example number_reply_reported_as_api_error :
  fst (check_image scripted (u "rules") (u "QUJD") (u "image/png")
                   (u "photo.png") None [Return (u "42")])
  = api_error_result (u "photo.png")
      (TypeError (u "'int' object does not support item assignment"))
  /\ dict_get (u "issues")
       (fst (check_image scripted (u "rules") (u "QUJD") (u "image/png")
                         (u "photo.png") None [Return (u "42")]))
     = Some (JList [JDict [(u "severity", JStr (u "critical"));
                           (u "category", JStr (u "システムエラー"));
                           (u "description",
                            JStr (u "API呼び出しエラー: 'int' object does not support item assignment"))]]).
Proof. split; vm_compute; reflexivity. Qed.

(** ** Invariants of the records *)

Section RecordFacts.

Variable cl : OpenAI.
Variable prompt : str.

Lemma raw_response_of_reply (display_name : str) (reply : result str) :
  dict_has (u "raw_response") (reply_record display_name reply) = true <->
  (exists content,
     reply = Return content /\ json_loads (json_str content) = None)
  \/ (exists content d,
        reply = Return content
        /\ json_loads (json_str content) = Some (JDict d)
        /\ dict_has (u "raw_response") d = true).
Proof.
  pose proof (reply_record_cases display_name reply) as H.
  destruct reply as [content|e].
  - destruct (json_loads (json_str content)) as [[| | | | | |d]|] eqn:E.
    1-6: destruct H as [msg ->]; (split; [discriminate|]);
      intros [[c [Hc Hn]] | [c [d [Hc [Hd _]]]]];
      injection Hc as <-; congruence.
    + rewrite H. unfold dict_has.
      rewrite dict_get_set_other by discriminate. split.
      * intros Hd. right. now exists content, d.
      * intros [[c [Hc Hn]] | [c [d' [Hc [Hd Hr]]]]];
          injection Hc as <-; [congruence|].
        rewrite E in Hd. injection Hd as <-. exact Hr.
    + rewrite H. split; [|reflexivity].
      intros _. left. now exists content.
  - rewrite H. split; [discriminate|].
    intros [[c [Hc _]] | [c [d [Hc _]]]]; discriminate.
Qed.

(** C5 as amended: a record returned by [check_image] has a
    [raw_response] entry exactly when the parser took the fallback path
    for the reply, or the reply decoded to an object that itself has a
    [raw_response] entry.  In particular the record built after a failed
    remote call has none. *)
Theorem raw_response_presence (base64_image media_type file_name : str)
  (page_num : option nat) (w : World cl) :
  let display_name := display_name_of file_name page_num in
  let reply :=
    fst (create cl (request_of prompt display_name media_type base64_image) w) in
  let r := fst (check_image cl prompt base64_image media_type file_name page_num w) in
  (dict_has (u "raw_response") r = true <->
   (exists content,
      reply = Return content /\ json_loads (json_str content) = None)
   \/ (exists content d,
         reply = Return content
         /\ json_loads (json_str content) = Some (JDict d)
         /\ dict_has (u "raw_response") d = true))
  /\ (forall e, reply = Raise e -> dict_has (u "raw_response") r = false).
Proof.
  cbv zeta. rewrite check_image_record. cbn [fst]. split.
  - apply raw_response_of_reply.
  - intros e ->. reflexivity.
Qed.

(** C6 as amended: the judgment of a record returned by [check_image]
    is 問題なし, 問題あり or 要確認 on the fallback path and エラー when the
    remote call failed or the reply decoded to something that is no
    object; when the reply decoded to an object, the record has the
    judgment entry of that object, whatever it is, and none when the
    object has none. *)
Theorem judgment_of_record (base64_image media_type file_name : str)
  (page_num : option nat) (w : World cl) :
  let display_name := display_name_of file_name page_num in
  let reply :=
    fst (create cl (request_of prompt display_name media_type base64_image) w) in
  let r := fst (check_image cl prompt base64_image media_type file_name page_num w) in
  (forall content,
     reply = Return content -> json_loads (json_str content) = None ->
     dict_get (u "judgment") r = Some (JStr (u "問題なし"))
     \/ dict_get (u "judgment") r = Some (JStr (u "問題あり"))
     \/ dict_get (u "judgment") r = Some (JStr (u "要確認")))
  /\ (forall content d,
        reply = Return content ->
        json_loads (json_str content) = Some (JDict d) ->
        dict_get (u "judgment") r = dict_get (u "judgment") d)
  /\ (forall content v,
        reply = Return content ->
        json_loads (json_str content) = Some v ->
        (forall d, v <> JDict d) ->
        dict_get (u "judgment") r = Some (JStr (u "エラー")))
  /\ (forall e,
        reply = Raise e ->
        dict_get (u "judgment") r = Some (JStr (u "エラー"))).
Proof.
  cbv zeta. rewrite check_image_record. cbn [fst].
  set (name := display_name_of file_name page_num).
  set (reply := fst (create cl _ w)).
  pose proof (reply_record_cases name reply) as H.
  repeat split.
  - intros content Hr Hn. rewrite Hr in H |- *. rewrite Hn in H. rewrite H.
    rewrite fallback_judgment_entry.
    destruct (contains (u "問題なし") content); [now left|].
    destruct (_ || _); [right; now left | right; now right].
  - intros content d Hr Hd. rewrite Hr in H |- *. rewrite Hd in H. rewrite H.
    apply dict_get_set_other. discriminate.
  - intros content v Hr Hv Hnd. rewrite Hr in H |- *. rewrite Hv in H.
    destruct v as [| | | | | |d].
    1-6: destruct H as [msg ->]; reflexivity.
    now destruct (Hnd d).
  - intros e Hr. rewrite Hr in H |- *. now rewrite H.
Qed.

End RecordFacts.

(** C5 as stated fails: the reply [echo_reply] decodes, so the parser
    does not take the fallback path, and the record still has a
    [raw_response] entry. *)
Lemma raw_response_without_fallback :
  json_loads (json_str echo_reply) <> None
  /\ dict_has (u "raw_response")
       (fst (check_image scripted (u "rules") (u "QUJD") (u "image/png")
                         (u "photo.png") None [Return echo_reply]))
     = true.
Proof. split; [vm_compute; discriminate | vm_compute; reflexivity]. Qed.

(** C6 as stated fails: a judgment label that is none of the four known
    ones is returned as it came, not as 要確認, and an object without a
    judgment gives a record without one. *)
Lemma judgment_not_normalised :
  dict_get (u "judgment")
    (fst (check_image scripted (u "rules") (u "QUJD") (u "image/png")
                      (u "photo.png") None
                      [Return (dq "{'judgment': 'maybe'}")]))
  = Some (JStr (u "maybe"))
  /\ dict_get (u "judgment")
       (fst (check_image scripted (u "rules") (u "QUJD") (u "image/png")
                         (u "photo.png") None [Return (u "{}")]))
     = None.
Proof. split; vm_compute; reflexivity. Qed.

(** ** The orchestrator: [check_multiple_images] *)

Section OrchestratorFacts.

Variable cl : OpenAI.
Variable prompt : str.

Lemma length_requests_from (file_name : str) (n i : nat) (rest : list (str * str)) :
  List.length (requests_from prompt file_name n i rest) = List.length rest.
Proof.
  revert i. induction rest as [|[b m] rest IH]; intros i; simpl;
    [reflexivity | now rewrite IH].
Qed.

Lemma length_call_each (reqs : list request) (w : World cl) :
  List.length (fst (call_each cl reqs w)) = List.length reqs.
Proof.
  revert w. induction reqs as [|req reqs IH]; intros w; simpl; [reflexivity|].
  destruct (create cl req w) as [reply w'].
  specialize (IH w'). destruct (call_each cl reqs w') as [replies w''].
  simpl in *. now rewrite IH.
Qed.

Lemma length_records_from (file_name : str) (n i : nat)
  (replies : list (result str)) :
  List.length (records_from file_name n i replies) = List.length replies.
Proof.
  revert i. induction replies as [|r replies IH]; intros i; simpl;
    [reflexivity | now rewrite IH].
Qed.

Lemma nth_error_records_from (file_name : str) (n i k : nat)
  (replies : list (result str)) (reply : result str) :
  nth_error replies k = Some reply ->
  nth_error (records_from file_name n i replies) k
  = Some (reply_record (display_name_of file_name (page_num_of n (i + k))) reply).
Proof.
  revert i k. induction replies as [|r replies IH]; intros i k H.
  - destruct k; discriminate.
  - destruct k as [|k]; simpl in *.
    + injection H as ->. now rewrite Nat.add_0_r.
    + rewrite (IH (S i) k H). do 4 f_equal. lia.
Qed.

(** The loop makes one call per payload, in order, and appends one
    record per reply. *)
Lemma check_loop_spec (file_name : str) (n i : nat) (rest : list (str * str))
  (results : list dict) (w : World cl) :
  let calls := call_each cl (requests_from prompt file_name n i rest) w in
  check_loop cl prompt file_name n i rest results w
  = (results ++ records_from file_name n i (fst calls), snd calls).
Proof.
  cbv zeta. revert i results w.
  induction rest as [|[b m] rest IH]; intros i results w.
  - simpl. now rewrite app_nil_r.
  - cbn [check_loop requests_from call_each].
    fold (page_num_of n i).
    rewrite check_image_record. cbv zeta.
    destruct (create cl _ w) as [reply w']. cbn [fst snd].
    rewrite IH.
    destruct (call_each cl _ w') as [replies w'']. cbn [fst snd records_from].
    now rewrite <- app_assoc.
Qed.

Lemma check_multiple_images_spec (images : list (str * str))
  (file_name : str) (w : World cl) :
  let n := List.length images in
  let calls := call_each cl (requests_from prompt file_name n 0 images) w in
  check_multiple_images cl prompt images file_name w
  = (records_from file_name n 0 (fst calls), snd calls).
Proof. unfold check_multiple_images. now rewrite check_loop_spec. Qed.

Lemma nth_error_requests_from (file_name : str) (n i k : nat)
  (rest : list (str * str)) (base64_image media_type : str) :
  nth_error rest k = Some (base64_image, media_type) ->
  nth_error (requests_from prompt file_name n i rest) k
  = Some (request_of prompt
            (display_name_of file_name (page_num_of n (i + k)))
            media_type base64_image).
Proof.
  revert i k. induction rest as [|[b m] rest IH]; intros i k H.
  - destruct k; discriminate.
  - destruct k as [|k]; simpl in *.
    + injection H as -> ->. now rewrite Nat.add_0_r.
    + rewrite (IH (S i) k H). do 4 f_equal. lia.
Qed.

(** C7: [check_multiple_images] calls the client once per payload, in
    payload order and with no second attempt, and returns one record per
    payload in that order.  The record at index [i] is determined by the
    reply to call [i] alone.  When that call raised [e], the record is the
    dictionary of the exception handler: judgment エラー (Error), company
    不明 (unknown), one issue of severity critical and category
    システムエラー (system error) whose description is the label
    API呼び出しエラー followed by [str(e)], empty detected elements, and
    the note that asks to try again; the parser is not involved. *)
Theorem check_multiple_images_isolates_failures (images : list (str * str))
  (file_name : str) (w : World cl) :
  let n := List.length images in
  let requests := requests_from prompt file_name n 0 images in
  let calls := call_each cl requests w in
  let run := check_multiple_images cl prompt images file_name w in
  List.length (fst run) = n
  /\ List.length requests = n
  /\ List.length (fst calls) = n
  /\ snd run = snd calls
  /\ (forall i base64_image media_type,
        nth_error images i = Some (base64_image, media_type) ->
        nth_error requests i
        = Some (request_of prompt
                  (display_name_of file_name (page_num_of n i))
                  media_type base64_image))
  /\ (forall i reply,
        nth_error (fst calls) i = Some reply ->
        nth_error (fst run) i
        = Some (reply_record (display_name_of file_name (page_num_of n i)) reply))
  /\ (forall i e,
        nth_error (fst calls) i = Some (Raise e) ->
        nth_error (fst run) i
        = Some [(u "file_name",
                 JStr (display_name_of file_name (page_num_of n i)));
                (u "company_name", JStr (u "不明"));
                (u "judgment", JStr (u "エラー"));
                (u "issues",
                 JList [JDict [(u "severity", JStr (u "critical"));
                               (u "category", JStr (u "システムエラー"));
                               (u "description",
                                JStr (u "API呼び出しエラー: " ++ str_of_exn e))]]);
                (u "detected_elements",
                 JDict [(u "year", JNull);
                        (u "issuer", JNull);
                        (u "ranking_name", JNull);
                        (u "position", JNull);
                        (u "trademark_symbol", JBool false)]);
                (u "notes",
                 JStr (u "APIエラーが発生しました。再試行してください。"))]).
Proof.
  cbv zeta. rewrite check_multiple_images_spec. cbn [fst snd].
  rewrite length_records_from, length_call_each, length_requests_from.
  repeat split.
  - intros i b m H. now rewrite (nth_error_requests_from _ _ 0 i _ _ _ H).
  - intros i reply H. now rewrite (nth_error_records_from _ _ 0 i _ _ H).
  - intros i e H. now rewrite (nth_error_records_from _ _ 0 i _ _ H).
Qed.

(** C9: the record of the payload at index [i] (position [i + 1])
    carries, as [file_name], the original name when there is one payload,
    and the original name followed by a space and (ページ N), with
    N = [i + 1] in decimal, when there are several. *)
Theorem display_name_stamped (images : list (str * str)) (file_name : str)
  (w : World cl) (i : nat) :
  (i < List.length images)%nat ->
  exists r,
    nth_error (fst (check_multiple_images cl prompt images file_name w)) i
    = Some r
    /\ (List.length images = 1%nat ->
        dict_get (u "file_name") r = Some (JStr file_name))
    /\ ((1 < List.length images)%nat ->
        dict_get (u "file_name") r
        = Some (JStr (file_name ++ u " (ページ " ++ str_of_nat (i + 1) ++ u ")"))).
Proof.
  intros Hi. rewrite check_multiple_images_spec. cbn [fst].
  set (n := List.length images) in *.
  set (replies := fst (call_each cl _ w)).
  assert (Hlen : List.length replies = n).
  { unfold replies. now rewrite length_call_each, length_requests_from. }
  destruct (nth_error replies i) as [reply|] eqn:E.
  - rewrite (nth_error_records_from _ _ 0 i _ _ E). eexists. split; [reflexivity|].
    rewrite reply_record_file_name. unfold page_num_of. cbn [Nat.add].
    split; intros Hn.
    + rewrite Hn. reflexivity.
    + replace (1 <? n)%nat with true by (symmetry; now apply Nat.ltb_lt).
      reflexivity.
  - apply nth_error_None in E. lia.
Qed.

End OrchestratorFacts.

Lemma display_name_stamped_witness :
  exists r,
    nth_error
      (fst (check_multiple_images scripted (u "rules") three_pages (u "doc.pdf")
              [Return (u "{}"); Raise (OtherError (u "timed out"));
               Return (u "問題なし")])) 1
    = Some r
    /\ dict_get (u "file_name") r = Some (JStr (u "doc.pdf (ページ 2)")).
Proof.
  destruct (display_name_stamped scripted (u "rules") three_pages (u "doc.pdf")
              [Return (u "{}"); Raise (OtherError (u "timed out"));
               Return (u "問題なし")] 1) as [r [Hr [_ Hname]]].
  - simpl. lia.
  - exists r. split; [exact Hr|]. apply Hname. simpl. lia.
Defined.

(** The naming example of the specification, run on the model: a document
    of three pages and a single picture. *)
Example orchestrator_naming :
  map (dict_get (u "file_name"))
      (fst (check_multiple_images scripted (u "rules") three_pages (u "doc.pdf")
              [Return (u "{}"); Raise (OtherError (u "timed out"));
               Return (u "問題なし")]))
  = [Some (JStr (u "doc.pdf (ページ 1)"));
     Some (JStr (u "doc.pdf (ページ 2)"));
     Some (JStr (u "doc.pdf (ページ 3)"))]
  /\ map (dict_get (u "file_name"))
         (fst (check_multiple_images scripted (u "rules")
                 [(u "UDE=", u "image/png")] (u "photo.png") [Return (u "{}")]))
     = [Some (JStr (u "photo.png"))].
Proof. split; vm_compute; reflexivity. Qed.

(** Failure isolation, run on the model: the second of three calls
    raises; three records come back, the second with judgment エラー, the
    first and third as they are without the failure. *)
Example remote_failure_isolation :
  map (dict_get (u "judgment"))
      (fst (check_multiple_images scripted (u "rules") three_pages (u "doc.pdf")
              [Return (dq "{'judgment': '問題あり'}");
               Raise (OtherError (u "timed out"));
               Return (u "問題なし")]))
  = [Some (JStr (u "問題あり")); Some (JStr (u "エラー"));
     Some (JStr (u "問題なし"))]
  /\ map (dict_get (u "judgment"))
         (fst (check_multiple_images scripted (u "rules") three_pages (u "doc.pdf")
                 [Return (dq "{'judgment': '問題あり'}");
                  Return (dq "{'judgment': '要確認'}");
                  Return (u "問題なし")]))
     = [Some (JStr (u "問題あり")); Some (JStr (u "要確認"));
        Some (JStr (u "問題なし"))].
Proof. split; vm_compute; reflexivity. Qed.

(** ** The normaliser: [process_uploaded_file] *)

Section NormalizerFacts.

Variable fz : Rasterizer.

Lemma ext_in_spec (ext : str) (exts : list str) :
  ext_in ext exts = true <-> In ext exts.
Proof.
  unfold ext_in. rewrite existsb_exists. split.
  - intros [x [Hx E]]. apply str_eqb_eq in E. now subst.
  - intros H. exists ext. split; [exact H | apply str_eqb_refl].
Qed.

Lemma ext_in_false (ext : str) (exts : list str) :
  ~ In ext exts -> ext_in ext exts = false.
Proof.
  intros H. destruct (ext_in ext exts) eqn:E; [|reflexivity].
  apply ext_in_spec in E. contradiction.
Qed.

(** [lower] folds the case of ASCII letters and changes nothing else. *)
Lemma lower_char_spec (c : char) :
  lower_char c = if (ch "A" <=? c) && (c <=? ch "Z") then c + 32 else c.
Proof. reflexivity. Qed.

Lemma lower_idempotent (s : str) : lower (lower s) = lower s.
Proof.
  unfold lower. rewrite map_map. apply map_ext. intros c.
  unfold lower_char.
  destruct ((0x41 <=? c) && (c <=? 0x5A)) eqn:E; [|now rewrite E].
  apply andb_true_iff in E as [E1 E2].
  apply N.leb_le in E1, E2.
  replace (c + 32 <=? 0x5A) with false by (symmetry; apply N.leb_gt; lia).
  now rewrite andb_false_r.
Qed.

(** C8: the file is dispatched on the lower-cased suffix of its name.
    For each of the six picture suffixes the result is one payload, the
    base64 text of the bytes tagged with the media type the table gives
    for the suffix; the table covers all six, and for a suffix outside it
    [_process_image_bytes] falls back to image/png.  For the suffix of a
    document the result is one payload per page, in page order, each the
    base64 text of the page's PNG tagged image/png, and a [RuntimeError]
    when PyMuPDF is missing.  Any other suffix raises a [ValueError]
    (unsupported file type).  Two files with the same bytes whose
    suffixes differ in letter case only are treated alike. *)
Theorem process_uploaded_file_dispatch (f : UploadedFile) :
  let ext := lower (suffix (name f)) in
  (forall e mime,
     In (e, mime) [(u ".png", u "image/png"); (u ".jpg", u "image/jpeg");
                   (u ".jpeg", u "image/jpeg"); (u ".gif", u "image/gif");
                   (u ".webp", u "image/webp"); (u ".bmp", u "image/bmp")] ->
     ext = e ->
     process_uploaded_file fz f = Return [(b64encode (read f), mime)])
  /\ (forall image_bytes ext',
        ~ In ext' [u ".png"; u ".jpg"; u ".jpeg"; u ".gif"; u ".webp"; u ".bmp"] ->
        _process_image_bytes image_bytes ext'
        = [(b64encode image_bytes, u "image/png")])
  /\ (ext = u ".pdf" -> PYMUPDF_AVAILABLE fz = false ->
      process_uploaded_file fz f
      = Raise (RuntimeError
                 (u "PyMuPDF is not installed. Cannot process PDF files.")))
  /\ (ext = u ".pdf" -> PYMUPDF_AVAILABLE fz = true ->
      forall doc, fitz_open fz (read f) = Return doc ->
      process_uploaded_file fz f
      = Return (map (fun page => (b64encode (pixmap_png fz page), u "image/png"))
                    doc))
  /\ (~ In ext [u ".png"; u ".jpg"; u ".jpeg"; u ".gif"; u ".webp"; u ".bmp";
                u ".pdf"] ->
      process_uploaded_file fz f
      = Raise (ValueError (u "Unsupported file type: " ++ name f)))
  /\ (forall g,
        read g = read f -> lower (suffix (name g)) = ext ->
        In ext [u ".png"; u ".jpg"; u ".jpeg"; u ".gif"; u ".webp"; u ".bmp";
                u ".pdf"] ->
        process_uploaded_file fz g = process_uploaded_file fz f).
Proof.
  cbv zeta. unfold process_uploaded_file. repeat split.
  - intros e mime Hin He. rewrite He.
    repeat (destruct Hin as [Hin | Hin];
            [injection Hin as <- <-; reflexivity|]).
    destruct Hin.
  - intros image_bytes ext' Hnot. unfold _process_image_bytes. do 2 f_equal.
    assert (H : forall m : list (str * str),
              ~ In ext' (map fst m) -> map_get m ext' (u "image/png") = u "image/png").
    { induction m as [|[k v] m IH]; intros Hm; [reflexivity|].
      simpl. rewrite str_eqb_neq.
      - apply IH. intros Hin. apply Hm. now right.
      - intros ->. apply Hm. now left. }
    apply H. exact Hnot.
  - intros He Hav. rewrite He. unfold _process_pdf_bytes. now rewrite Hav.
  - intros He Hav doc Hdoc. rewrite He. unfold _process_pdf_bytes.
    now rewrite Hav, Hdoc.
  - intros Hnot.
    rewrite ext_in_false; [rewrite ext_in_false; [reflexivity|]|].
    + intros Hin. apply Hnot. simpl in Hin. simpl. tauto.
    + intros Hin. apply Hnot. simpl in Hin. simpl. tauto.
  - intros g Hread Hext Hin. rewrite Hext, Hread.
    destruct (ext_in _ SUPPORTED_IMAGE_EXTENSIONS) eqn:E1; [reflexivity|].
    destruct (ext_in _ SUPPORTED_DOC_EXTENSIONS) eqn:E2; [reflexivity|].
    exfalso.
    assert (H : In (lower (suffix (name f))) SUPPORTED_IMAGE_EXTENSIONS
                \/ In (lower (suffix (name f))) SUPPORTED_DOC_EXTENSIONS)
      by (simpl in Hin |- *; tauto).
    destruct H as [H | H]; apply ext_in_spec in H; congruence.
Qed.

(** X2: [is_supported] and [get_file_type] agree with each other and with
    the two sets of extensions. *)
Theorem get_file_type_classifies (file_path : str) :
  let ext := lower (suffix file_path) in
  (get_file_type file_path = u "image" <-> In ext SUPPORTED_IMAGE_EXTENSIONS)
  /\ (get_file_type file_path = u "pdf" <-> ext = u ".pdf")
  /\ (is_supported file_path = true <-> get_file_type file_path <> u "unknown").
Proof.
  cbv zeta. unfold get_file_type, is_supported.
  destruct (ext_in _ SUPPORTED_IMAGE_EXTENSIONS) eqn:E1.
  - apply ext_in_spec in E1. repeat split; auto; try discriminate.
    intros E. rewrite E in E1. simpl in E1.
    repeat (destruct E1 as [E1 | E1]; [discriminate|]). destruct E1.
  - destruct (ext_in _ SUPPORTED_DOC_EXTENSIONS) eqn:E2.
    + apply ext_in_spec in E2. simpl in E2. destruct E2 as [E2 | []].
      repeat split; auto; try discriminate.
      intros Hin. apply ext_in_spec in Hin. congruence.
    + repeat split; try discriminate; try congruence.
      * intros Hin. apply ext_in_spec in Hin. congruence.
      * intros E. rewrite E in E2. discriminate.
Qed.

End NormalizerFacts.

(** The dispatch, run on the model: upper-case suffixes, a document of
    two pages, an unsupported file, a name with no suffix. *)
Example normalizer_dispatch :
  process_uploaded_file two_page_fitz {| name := u "Photo.JPG"; read := [x4d; x61; x6e] |}
  = Return [(u "TWFu", u "image/jpeg")]
  /\ process_uploaded_file two_page_fitz {| name := u "scan.Pdf"; read := [x25] |}
     = Return [(u "UDE=", u "image/png"); (u "UDI=", u "image/png")]
  /\ process_uploaded_file two_page_fitz {| name := u "notes.txt"; read := [x25] |}
     = Raise (ValueError (u "Unsupported file type: notes.txt"))
  /\ process_uploaded_file two_page_fitz {| name := u "png"; read := [x25] |}
     = Raise (ValueError (u "Unsupported file type: png")).
Proof. repeat split; vm_compute; reflexivity. Qed.

(** * Further properties of the code *)

Import App.

(** ** Fenced blocks with a closing fence *)

Section ClosedFenceFacts.

(** A slice between two non-negative bounds inside the text. *)
Lemma slice_middle (a b c : str) :
  slice (a ++ b ++ c) (len a) (len a + len b) = b.
Proof.
  unfold slice, slice_index, len.
  replace (Z.of_nat (List.length a) <? 0)%Z with false
    by (symmetry; apply Z.ltb_ge; lia).
  replace (Z.of_nat (List.length a) + Z.of_nat (List.length b) <? 0)%Z
    with false by (symmetry; apply Z.ltb_ge; lia).
  rewrite !length_app.
  rewrite Z.min_l by lia. rewrite Z.min_l by lia.
  rewrite Nat2Z.id.
  replace (Z.to_nat _) with (List.length b) by lia.
  rewrite skipn_app, skipn_all, Nat.sub_diag. simpl.
  rewrite firstn_app, firstn_all, Nat.sub_diag. simpl. apply app_nil_r.
Qed.

(** The slice taken between an opening fence [op] and the first closing
    fence after it. *)
Lemma slice_between_fences (op pre body post : str) :
  op <> [] ->
  contains op (pre ++ removelast op) = false ->
  contains (u "```") (body ++ u "``") = false ->
  let content := pre ++ op ++ body ++ u "```" ++ post in
  let json_start := (find content op 0 + len op)%Z in
  slice content json_start (find content (u "```") json_start) = body.
Proof.
  intros Hop Hpre Hbody content json_start.
  assert (Hfind : find content op 0 = len pre).
  { unfold find. simpl Z.ltb. cbv iota.
    replace (len content <? 0)%Z with false
      by (symmetry; apply Z.ltb_ge; unfold len; lia).
    simpl. unfold content. now rewrite find_at_first. }
  assert (Hstart : json_start = len (pre ++ op)).
  { unfold json_start. rewrite Hfind. unfold len. rewrite length_app. lia. }
  assert (Hskip : skipn (Z.to_nat json_start) content
                  = body ++ u "```" ++ post).
  { rewrite Hstart. unfold len. rewrite Nat2Z.id. unfold content.
    rewrite app_assoc. rewrite skipn_app, skipn_all, Nat.sub_diag. reflexivity. }
  assert (Hend : find content (u "```") json_start
                 = (json_start + len body)%Z).
  { unfold find.
    replace (json_start <? 0)%Z with false
      by (symmetry; apply Z.ltb_ge; rewrite Hstart; unfold len; lia).
    replace (len content <? json_start)%Z with false.
    - rewrite Hskip. apply find_at_first; [discriminate | exact Hbody].
    - symmetry. apply Z.ltb_ge. rewrite Hstart. unfold content, len.
      rewrite !length_app. lia. }
  rewrite Hend, Hstart. unfold content.
  rewrite (app_assoc pre op). apply slice_middle.
Qed.

Lemma contains_app_r (sub a b : str) :
  contains sub b = true -> contains sub (a ++ b) = true.
Proof.
  intros H. apply contains_spec in H as [x [y ->]].
  apply contains_spec. exists (a ++ x), y. now rewrite <- app_assoc.
Qed.

Lemma contains_shorter (sub sub' s : str) :
  contains (sub ++ sub') s = true -> contains sub s = true.
Proof.
  intros H. apply contains_spec in H as [x [y ->]].
  apply contains_spec. exists x, (sub' ++ y). now rewrite <- app_assoc.
Qed.

(** X3: let the reply be [pre], an opening fence, [body], a closing ```
    and [post], where the opening fence is the first ```json of the reply
    (or its first ``` when the reply has no ```json) and the closing fence
    is the first ``` after it.  Then the text handed to the decoder is
    [body], stripped; what stands in [pre] (even another fenced block) and
    in [post] plays no part.  A reply without any ``` is handed over
    whole, stripped. *)
Theorem json_str_closed_fence (pre body post : str) :
  (contains (u "```json") (pre ++ u "```jso") = false ->
   contains (u "```") (body ++ u "``") = false ->
   json_str (pre ++ u "```json" ++ body ++ u "```" ++ post) = strip body)
  /\
  (contains (u "```json") (pre ++ u "```" ++ body ++ u "```" ++ post) = false ->
   contains (u "```") (pre ++ u "``") = false ->
   contains (u "```") (body ++ u "``") = false ->
   json_str (pre ++ u "```" ++ body ++ u "```" ++ post) = strip body)
  /\
  (contains (u "```") body = false -> json_str body = strip body).
Proof.
  split; [|split].
  - intros Hpre Hbody. unfold json_str.
    replace (contains (u "```json") _) with true
      by (symmetry; apply contains_spec; now exists pre, (body ++ u "```" ++ post)).
    pose proof (slice_between_fences (u "```json") pre body post) as H.
    cbv zeta in H. change (len (u "```json")) with 7%Z in H.
    rewrite H; [reflexivity | discriminate | exact Hpre | exact Hbody].
  - intros Hno Hpre Hbody. unfold json_str. rewrite Hno.
    replace (contains (u "```") _) with true
      by (symmetry; apply contains_spec; now exists pre, (body ++ u "```" ++ post)).
    pose proof (slice_between_fences (u "```") pre body post) as H.
    cbv zeta in H. change (len (u "```")) with 3%Z in H.
    rewrite H; [reflexivity | discriminate | exact Hpre | exact Hbody].
  - intros Hno. unfold json_str. rewrite Hno.
    destruct (contains (u "```json") body) eqn:E; [|reflexivity].
    change (u "```json") with (u "```" ++ u "json") in E.
    apply contains_shorter in E. congruence.
Qed.

Lemma json_str_closed_fence_witness :
  json_str (u "``` draft ``` final: " ++ u "```json" ++ u " {1} " ++ u "```"
            ++ u " bye") = strip (u " {1} ")
  /\ strip (u " {1} ") = u "{1}"
  /\ json_str (u "see " ++ u "```" ++ u " {2} " ++ u "```" ++ u " and ```more```")
     = strip (u " {2} ").
Proof.
  split; [|split].
  - exact (proj1 (json_str_closed_fence
                    (u "``` draft ``` final: ") (u " {1} ") (u " bye"))
                 ltac:(vm_compute; reflexivity) ltac:(vm_compute; reflexivity)).
  - vm_compute. reflexivity.
  - exact (proj1 (proj2 (json_str_closed_fence
                           (u "see ") (u " {2} ") (u " and ```more```")))
                 ltac:(vm_compute; reflexivity) ltac:(vm_compute; reflexivity)
                 ltac:(vm_compute; reflexivity)).
Defined.

(** X4: when the fenced block of a reply (as in X3, with a ```json
    fence) holds an object, the parser returns that object with the
    display name stamped, whatever prose surrounds the block. *)
Theorem _parse_response_fenced_object (pre body post file_name : str) (d : dict) :
  contains (u "```json") (pre ++ u "```jso") = false ->
  contains (u "```") (body ++ u "``") = false ->
  json_loads (strip body) = Some (JDict d) ->
  _parse_response (pre ++ u "```json" ++ body ++ u "```" ++ post) file_name
  = Return (dict_set d (u "file_name") (JStr file_name)).
Proof.
  intros Hpre Hbody Hd. unfold _parse_response.
  rewrite (proj1 (json_str_closed_fence pre body post) Hpre Hbody), Hd.
  reflexivity.
Qed.

Lemma _parse_response_fenced_object_witness :
  _parse_response
    (u "判定結果は以下の通りです。" ++ u "```json"
     ++ dq " {'judgment': '問題あり'} " ++ u "```"
     ++ u " 問題なしではありません。") (u "a.png")
  = Return (dict_set [(u "judgment", JStr (u "問題あり"))]
                     (u "file_name") (JStr (u "a.png"))).
Proof.
  exact (_parse_response_fenced_object (u "判定結果は以下の通りです。")
           (dq " {'judgment': '問題あり'} ") (u " 問題なしではありません。")
           (u "a.png") [(u "judgment", JStr (u "問題あり"))]
           ltac:(vm_compute; reflexivity) ltac:(vm_compute; reflexivity)
           ltac:(vm_compute; reflexivity)).
Defined.


End ClosedFenceFacts.

(** ** Names of the records of one file *)

Section NamingFacts.

Variable cl : OpenAI.
Variable prompt : str.

Lemma digits_of_uint_inj (d d' : Decimal.uint) :
  digits_of_uint d = digits_of_uint d' -> d = d'.
Proof.
  revert d'. induction d; destruct d'; simpl; intros H;
    try discriminate; try reflexivity; injection H as H; f_equal; auto.
Qed.

Lemma str_of_nat_inj (n m : nat) : str_of_nat n = str_of_nat m -> n = m.
Proof.
  unfold str_of_nat. intros H.
  apply DecimalNat.Unsigned.to_uint_inj. now apply digits_of_uint_inj.
Qed.

(** Two different pages never get the same display name. *)
Lemma display_name_of_inj (file_name : str) (i j : nat) :
  display_name_of file_name (Some i) = display_name_of file_name (Some j) ->
  i = j.
Proof.
  unfold display_name_of. intros H.
  apply app_inv_head in H. apply app_inv_head in H.
  apply app_inv_tail in H. apply str_of_nat_inj in H. lia.
Qed.

Lemma nth_error_records_from_inv (file_name : str) (n i k : nat)
  (replies : list (result str)) (r : dict) :
  nth_error (records_from file_name n i replies) k = Some r ->
  (k < List.length replies)%nat
  /\ exists reply,
       r = reply_record (display_name_of file_name (page_num_of n (i + k))) reply.
Proof.
  intros H. destruct (nth_error replies k) as [reply|] eqn:E.
  - rewrite (nth_error_records_from _ _ _ _ _ _ E) in H. injection H as <-.
    split; [apply nth_error_Some; congruence | now exists reply].
  - apply nth_error_None in E.
    assert (nth_error (records_from file_name n i replies) k = None)
      by (apply nth_error_None; now rewrite length_records_from).
    congruence.
Qed.

(** X6: the records that [check_multiple_images] returns for one file
    have pairwise different [file_name] entries, so a record can be told
    from the other pages' records by its name, whatever the replies
    were. *)
Theorem page_records_have_distinct_names (images : list (str * str))
  (file_name : str) (w : World cl) (i j : nat) (ri rj : dict) :
  i <> j ->
  nth_error (fst (check_multiple_images cl prompt images file_name w)) i = Some ri ->
  nth_error (fst (check_multiple_images cl prompt images file_name w)) j = Some rj ->
  dict_get (u "file_name") ri <> dict_get (u "file_name") rj.
Proof.
  intros Hij Hi Hj. rewrite check_multiple_images_spec in Hi, Hj.
  cbn [fst] in Hi, Hj.
  apply nth_error_records_from_inv in Hi as [Li [reply_i ->]].
  apply nth_error_records_from_inv in Hj as [Lj [reply_j ->]].
  rewrite length_call_each, length_requests_from in Li, Lj.
  rewrite !reply_record_file_name. cbn [Nat.add].
  unfold page_num_of.
  replace (1 <? List.length images)%nat with true
    by (symmetry; apply Nat.ltb_lt; lia).
  intros E. injection E as E. apply display_name_of_inj in E. contradiction.
Qed.

End NamingFacts.

Lemma page_records_have_distinct_names_witness :
  dict_get (u "file_name")
    (reply_record (display_name_of (u "doc.pdf") (page_num_of 3 0))
                  (Return (u "{}")))
  <> dict_get (u "file_name")
       (reply_record (display_name_of (u "doc.pdf") (page_num_of 3 2))
                     (Return (u "問題なし"))).
Proof.
  apply (page_records_have_distinct_names scripted (u "rules") three_pages
           (u "doc.pdf")
           [Return (u "{}"); Raise (OtherError (u "timed out"));
            Return (u "問題なし")] 0 2).
  - discriminate.
  - vm_compute. reflexivity.
  - vm_compute. reflexivity.
Defined.

(** ** Payloads of the normaliser *)

Section PayloadFacts.

Variable fz : Rasterizer.

Lemma media_type_known (ext : str) :
  In (map_get media_type_map ext (u "image/png"))
     [u "image/png"; u "image/jpeg"; u "image/gif"; u "image/webp"; u "image/bmp"].
Proof.
  unfold media_type_map. cbn [map_get].
  repeat (destruct (str_eqb _ ext); [simpl; tauto|]).
  simpl. tauto.
Qed.

(** X7: when [process_uploaded_file] returns, the file had a supported
    suffix and every payload is tagged with one of the five picture media
    types.  A picture gives exactly one payload and PyMuPDF plays no part
    in it; a document gives as many payloads as
    [get_pdf_page_count_from_bytes] counts pages, all tagged image/png. *)
Theorem payloads_of_supported_file (f : UploadedFile) (images : list (str * str)) :
  process_uploaded_file fz f = Return images ->
  let ext := lower (suffix (name f)) in
  In ext (SUPPORTED_IMAGE_EXTENSIONS ++ SUPPORTED_DOC_EXTENSIONS)
  /\ Forall (fun payload =>
               In (snd payload)
                  [u "image/png"; u "image/jpeg"; u "image/gif"; u "image/webp";
                   u "image/bmp"]) images
  /\ (In ext SUPPORTED_IMAGE_EXTENSIONS ->
      List.length images = 1%nat
      /\ forall fz', process_uploaded_file fz' f = Return images)
  /\ (ext = u ".pdf" ->
      get_pdf_page_count_from_bytes fz (read f) = Return (List.length images)
      /\ Forall (fun payload => snd payload = u "image/png") images).
Proof.
  cbv zeta. intros H. unfold process_uploaded_file in *. cbv zeta in *.
  destruct (ext_in _ SUPPORTED_IMAGE_EXTENSIONS) eqn:E1.
  - injection H as <-. pose proof (proj1 (ext_in_spec _ _) E1) as Hin.
    split; [apply in_or_app; now left|].
    split; [constructor; [apply media_type_known | constructor]|].
    split.
    + intros _. split; [reflexivity|]. intros fz'. reflexivity.
    + intros E. rewrite E in E1. discriminate.
  - destruct (ext_in _ SUPPORTED_DOC_EXTENSIONS) eqn:E2; [|discriminate].
    apply ext_in_spec in E2.
    split; [apply in_or_app; now right|].
    unfold _process_pdf_bytes, get_pdf_page_count_from_bytes in *.
    destruct (PYMUPDF_AVAILABLE fz); [|discriminate]. cbn [negb] in *.
    destruct (fitz_open fz (read f)) as [doc|e]; [|discriminate].
    injection H as <-.
    split; [apply Forall_forall; intros p Hp; apply in_map_iff in Hp;
            destruct Hp as [page [<- _]]; simpl; tauto|].
    split.
    + intros Hin. apply ext_in_spec in Hin. congruence.
    + intros _. split; [now rewrite length_map|].
      apply Forall_forall. intros p Hp. apply in_map_iff in Hp.
      now destruct Hp as [page [<- _]].
Qed.


Variable fs : FileSystem.

(** X9: [process_file] on a path gives what [process_uploaded_file]
    gives for an upload with that name and the bytes of the file.  An
    unsupported path is refused before the disk is touched, a picture
    that cannot be read raises what [open] raised, and a document is
    refused for a missing PyMuPDF before the disk is touched. *)
Theorem process_file_agrees (file_path : str) :
  (forall file_bytes,
     open_rb fs file_path = Return file_bytes ->
     process_file fz fs file_path
     = process_uploaded_file fz {| name := file_path; read := file_bytes |})
  /\ (is_supported file_path = false ->
      process_file fz fs file_path
      = Raise (ValueError (u "Unsupported file type: " ++ file_path)))
  /\ (forall e,
        open_rb fs file_path = Raise e ->
        In (lower (suffix file_path)) SUPPORTED_IMAGE_EXTENSIONS ->
        process_file fz fs file_path = Raise e)
  /\ (lower (suffix file_path) = u ".pdf" ->
      PYMUPDF_AVAILABLE fz = false ->
      process_file fz fs file_path
      = Raise (RuntimeError
                 (u "PyMuPDF is not installed. Cannot process PDF files."))).
Proof.
  unfold process_file, process_uploaded_file, get_file_type, is_supported.
  cbn [name read].
  destruct (ext_in _ SUPPORTED_IMAGE_EXTENSIONS) eqn:E1.
  - change (str_eqb (u "image") (u "image")) with true. cbv iota.
    unfold _process_image. repeat split.
    + intros file_bytes ->. reflexivity.
    + discriminate.
    + intros e ->. reflexivity.
    + intros E. rewrite E in E1. discriminate.
  - destruct (ext_in _ SUPPORTED_DOC_EXTENSIONS) eqn:E2.
    + change (str_eqb (u "pdf") (u "image")) with false.
      change (str_eqb (u "pdf") (u "pdf")) with true. cbv iota.
      unfold _process_pdf, _process_pdf_bytes. repeat split.
      * intros file_bytes ->. now destruct (PYMUPDF_AVAILABLE fz).
      * discriminate.
      * intros e _ Hin. apply ext_in_spec in Hin. congruence.
      * intros _ ->. reflexivity.
    + change (str_eqb (u "unknown") (u "image")) with false.
      change (str_eqb (u "unknown") (u "pdf")) with false. cbv iota.
      repeat split.
      * intros e _ Hin. apply ext_in_spec in Hin. congruence.
      * intros E. rewrite E in E2. discriminate.
Qed.

End PayloadFacts.

Lemma payloads_of_supported_file_witness :
  In (lower (suffix (u "scan.Pdf")))
     (SUPPORTED_IMAGE_EXTENSIONS ++ SUPPORTED_DOC_EXTENSIONS)
  /\ get_pdf_page_count_from_bytes two_page_fitz [x25] = Return 2%nat.
Proof.
  destruct (payloads_of_supported_file two_page_fitz
              {| name := u "scan.Pdf"; read := [x25] |}
              [(u "UDE=", u "image/png"); (u "UDI=", u "image/png")])
    as [Hsup [_ [_ Hpdf]]].
  - vm_compute. reflexivity.
  - split; [exact Hsup|].
    exact (proj1 (Hpdf ltac:(vm_compute; reflexivity))).
Defined.

Example process_file_sample :
  process_file two_page_fitz one_file_disk (u "img/Photo.JPG")
  = Return [(u "TWFu", u "image/jpeg")]
  /\ process_file two_page_fitz one_file_disk (u "img/other.png")
     = Raise (OtherError (u "[Errno 2] No such file or directory"))
  /\ process_file two_page_fitz one_file_disk (u "notes.txt")
     = Raise (ValueError (u "Unsupported file type: notes.txt")).
Proof. repeat split; vm_compute; reflexivity. Qed.

(** ** Credentials and prompt *)

Section SetupFacts.

Variable getenv : Environ.

(** What the environment gives for the key, with the empty default. *)
Lemma env_key_or_empty (v : str) :
  (if truthy (Some v) then v else []) = v.
Proof. now destruct v. Qed.

(** X10: [get_api_key] prefers the secret store: when the store has the
    section and the key can be read, that key is returned as it is, even
    an empty one and even when the environment has a key.  In every other
    case (no store, no section, or an exception while looking) the value
    of OPENAI_API_KEY is returned, and the empty string when the variable
    is not set. *)
Theorem get_api_key_precedence (st : Secrets) :
  (forall key,
     has_secrets st = true ->
     openai_in_secrets st = Return true ->
     secrets_openai_api_key st = Return key ->
     get_api_key st getenv = key)
  /\ (has_secrets st = false
      \/ openai_in_secrets st = Return false
      \/ (exists e, openai_in_secrets st = Raise e)
      \/ (exists e, secrets_openai_api_key st = Raise e) ->
      get_api_key st getenv
      = match getenv (u "OPENAI_API_KEY") with
        | Some v => v
        | None => []
        end).
Proof.
  unfold get_api_key. split.
  - intros key -> -> ->. reflexivity.
  - rewrite env_key_or_empty.
    intros [-> | [H | [[e H] | [e H]]]]; [reflexivity| | |].
    + rewrite H. now destruct (has_secrets st).
    + rewrite H. now destruct (has_secrets st).
    + rewrite H. destruct (has_secrets st); [|reflexivity].
      destruct (openai_in_secrets st) as [[|]|]; reflexivity.
Qed.

Variable pf : PromptFiles.

(** X11: the constructor takes the key from its argument when that is a
    non-empty string and from OPENAI_API_KEY otherwise; when neither is a
    non-empty string it raises the [ValueError] that asks for a key,
    before any prompt file is looked at.  A checker that was built has a
    non-empty key and the prompt that [_load_prompt] gave. *)
Theorem init_key_resolution (key : option str) :
  (truthy key = false -> truthy (getenv (u "OPENAI_API_KEY")) = false ->
   __init__ getenv pf key
   = Raise (ValueError (u "OpenAI API key is required. Set OPENAI_API_KEY environment variable or pass api_key parameter.")))
  /\ (forall c,
        __init__ getenv pf key = Return c ->
        truthy (api_key c) = true
        /\ (truthy key = true -> api_key c = key)
        /\ (truthy key = false -> api_key c = getenv (u "OPENAI_API_KEY"))
        /\ _load_prompt pf = Return (prompt c))
  /\ (truthy key = true \/ truthy (getenv (u "OPENAI_API_KEY")) = true ->
      forall e, _load_prompt pf = Raise e -> __init__ getenv pf key = Raise e).
Proof.
  unfold __init__. split; [|split].
  - intros -> ->. reflexivity.
  - intros c H. destruct (truthy key) eqn:Ek.
    + rewrite Ek in H. cbn [negb] in H.
      destruct (_load_prompt pf) as [p|e]; [|discriminate].
      injection H as <-. cbn. repeat split; auto. discriminate.
    + destruct (truthy (getenv (u "OPENAI_API_KEY"))) eqn:Ee; [|discriminate].
      cbn [negb] in H.
      destruct (_load_prompt pf) as [p|e]; [|discriminate].
      injection H as <-. cbn. repeat split; auto. discriminate.
  - intros Hk e He. rewrite He.
    destruct (truthy key) eqn:Ek.
    + rewrite Ek. reflexivity.
    + destruct Hk as [Hk | Hk]; [discriminate|]. rewrite Hk. reflexivity.
Qed.

(** X12: the prompt is the text of the first candidate file that
    exists, the package's file before [config/prompt.txt]; the built-in
    prompt is used only when neither exists.  When a file exists and
    cannot be read, the exception leaves [_load_prompt]: there is no
    falling back to the next candidate or to the built-in prompt. *)
Theorem _load_prompt_precedence :
  (exists_ pf (package_prompt_path pf) = true ->
   _load_prompt pf = read_text pf (package_prompt_path pf))
  /\ (exists_ pf (package_prompt_path pf) = false ->
      exists_ pf (u "config/prompt.txt") = true ->
      _load_prompt pf = read_text pf (u "config/prompt.txt"))
  /\ (exists_ pf (package_prompt_path pf) = false ->
      exists_ pf (u "config/prompt.txt") = false ->
      _load_prompt pf = Return _get_default_prompt)
  /\ (forall text,
        _load_prompt pf = Return text ->
        text = _get_default_prompt
        \/ exists path, In path (possible_paths pf)
                        /\ exists_ pf path = true
                        /\ read_text pf path = Return text).
Proof.
  unfold _load_prompt, possible_paths. cbn [load_prompt_from].
  destruct (exists_ pf (package_prompt_path pf)) eqn:E1.
  - repeat split; try discriminate.
    intros text H. right. exists (package_prompt_path pf).
    repeat split; auto. now left.
  - destruct (exists_ pf (u "config/prompt.txt")) eqn:E2.
    + repeat split; try discriminate.
      intros text H. right. exists (u "config/prompt.txt").
      repeat split; auto. right. now left.
    + repeat split; try discriminate.
      intros text H. left. now injection H as <-.
Qed.

End SetupFacts.

(** ** Display classes and summary counts *)

Section DisplayFacts.

Lemma is_str_spec (v : json) (label : str) :
  is_str v label = true <-> v = JStr label.
Proof.
  destruct v; simpl; try (split; [discriminate | congruence]).
  rewrite str_eqb_eq. split; [now intros -> | congruence].
Qed.

(** X13: [get_judgment_color] and [get_judgment_emoji] always agree: a
    judgment gets the style of 問題なし, 問題あり or 要確認 exactly when it
    is that string, and everything else (エラー, an unknown label, a value
    that is no string) gets the error style from both. *)
Theorem judgment_style_consistent (judgment : json) :
  (judgment = JStr (u "問題なし")
   /\ get_judgment_color judgment = u "result-ok"
   /\ get_judgment_emoji judgment = u "✅")
  \/ (judgment = JStr (u "問題あり")
      /\ get_judgment_color judgment = u "result-ng"
      /\ get_judgment_emoji judgment = u "❌")
  \/ (judgment = JStr (u "要確認")
      /\ get_judgment_color judgment = u "result-warning"
      /\ get_judgment_emoji judgment = u "⚠️")
  \/ (judgment <> JStr (u "問題なし")
      /\ judgment <> JStr (u "問題あり")
      /\ judgment <> JStr (u "要確認")
      /\ get_judgment_color judgment = u "result-error"
      /\ get_judgment_emoji judgment = u "🔄").
Proof.
  unfold get_judgment_color, get_judgment_emoji.
  destruct (is_str judgment (u "問題なし")) eqn:E1.
  { left. apply is_str_spec in E1. now repeat split. }
  destruct (is_str judgment (u "問題あり")) eqn:E2.
  { right. left. apply is_str_spec in E2. now repeat split. }
  destruct (is_str judgment (u "要確認")) eqn:E3.
  { right. right. left. apply is_str_spec in E3. now repeat split. }
  right. right. right.
  repeat split; try reflexivity; intros H; apply is_str_spec in H; congruence.
Qed.

(** A record is counted under at most one of the three labels. *)
Lemma judgment_is_exclusive (a b : str) (r : dict) :
  a <> b -> judgment_is a r = true -> judgment_is b r = false.
Proof.
  unfold judgment_is. intros Hab Ha.
  destruct (dict_get (u "judgment") r) as [v|]; [|reflexivity].
  apply is_str_spec in Ha. subst v. simpl. apply str_eqb_neq. congruence.
Qed.

(** The three labels that are counted are different strings. *)
Lemma counted_labels_differ :
  u "問題なし" <> u "問題あり" /\ u "問題なし" <> u "要確認"
  /\ u "問題あり" <> u "要確認".
Proof. repeat split; intros H; vm_compute in H; discriminate. Qed.

(** X14: the three counts of the summary never count a record twice:
    together with the records whose judgment is none of 問題なし, 問題あり,
    要確認 (error records among them) they add up to the total. *)
Theorem summary_partition (results : list dict) :
  let '(total, ok_count, ng_count, warn_count) := summary results in
  total
  = (ok_count + ng_count + warn_count
     + List.length
         (filter (fun r => negb (judgment_is (u "問題なし") r
                                 || judgment_is (u "問題あり") r
                                 || judgment_is (u "要確認") r)) results))%nat.
Proof.
  destruct counted_labels_differ as [D12 [D13 D23]].
  unfold summary, count_judgment.
  induction results as [|r results IH]; [reflexivity|].
  cbn [filter List.length].
  destruct (judgment_is (u "問題なし") r) eqn:E1.
  - rewrite (judgment_is_exclusive _ (u "問題あり") _ D12 E1).
    rewrite (judgment_is_exclusive _ (u "要確認") _ D13 E1).
    cbn [orb negb List.length]. lia.
  - destruct (judgment_is (u "問題あり") r) eqn:E2.
    + rewrite (judgment_is_exclusive _ (u "要確認") _ D23 E2).
      cbn [orb negb List.length]. lia.
    + destruct (judgment_is (u "要確認") r) eqn:E3;
        cbn [orb negb List.length]; lia.
Qed.

End DisplayFacts.

(** The counts for the judgments Clean, Violation, NeedsReview, Clean, and
    for a list with an error record. *)
Example summary_sample :
  summary [[(u "judgment", JStr (u "問題なし"))];
           [(u "judgment", JStr (u "問題あり"))];
           [(u "judgment", JStr (u "要確認"))];
           [(u "judgment", JStr (u "問題なし"))]]
  = (4, 2, 1, 1)%nat
  /\ summary [processing_error_result (u "notes.txt") (ValueError (u "x"));
              [(u "company_name", JStr (u "ACME"))]]
     = (2, 0, 0, 0)%nat.
Proof. split; vm_compute; reflexivity. Qed.

(** ** The batch loop of [main] *)

Section BatchFacts.

Variable cl : OpenAI.
Variable prompt : str.
Variable fz : Rasterizer.

(** The loop only ever appends to the results it was given. *)
Lemma check_files_acc (files : list UploadedFile) (results : list dict)
  (w : World cl) :
  check_files cl prompt fz files results w
  = (results ++ fst (check_files cl prompt fz files [] w),
     snd (check_files cl prompt fz files [] w)).
Proof.
  revert results w. induction files as [|f files IH]; intros results w.
  - simpl. now rewrite app_nil_r.
  - cbn [check_files]. destruct (process_uploaded_file fz f) as [images|e].
    + destruct (check_multiple_images cl prompt images (name f) w) as [new w'].
      rewrite (IH (results ++ new)), (IH ([] ++ new)). cbn [fst snd app].
      now rewrite <- app_assoc.
    + rewrite (IH (results ++ _)), (IH ([] ++ _)). cbn [fst snd app].
      now rewrite <- app_assoc.
Qed.

(** A batch is handled as its first part followed by its second part. *)
Lemma check_files_app (files1 files2 : list UploadedFile) (w : World cl) :
  let run1 := check_files cl prompt fz files1 [] w in
  let run2 := check_files cl prompt fz files2 [] (snd run1) in
  check_files cl prompt fz (files1 ++ files2) [] w
  = (fst run1 ++ fst run2, snd run2).
Proof.
  cbv zeta. revert w. induction files1 as [|f files1 IH]; intros w.
  - simpl. now destruct (check_files cl prompt fz files2 [] w).
  - cbn [app check_files]. destruct (process_uploaded_file fz f) as [images|e].
    + destruct (check_multiple_images cl prompt images (name f) w) as [new w'].
      cbn [app].
      rewrite (check_files_acc (files1 ++ files2) new), IH.
      rewrite (check_files_acc files1 new). cbn [fst snd].
      now rewrite app_assoc.
    + cbn [app].
      rewrite (check_files_acc (files1 ++ files2) [_]), IH.
      rewrite (check_files_acc files1 [_]). cbn [fst snd].
      now rewrite app_assoc.
Qed.

(** X15: a file that the normaliser refuses costs the batch nothing but
    one record.  It adds exactly one record (judgment エラー, one critical
    処理エラー issue whose description is [str(e)], empty detected
    elements) at its place, no remote call is made for it, and the records
    of the files before and after it, and the state of the outside world,
    are what they are for the batch without that file. *)
Theorem batch_isolation (before after : list UploadedFile) (bad : UploadedFile)
  (e : exn) (w : World cl) :
  process_uploaded_file fz bad = Raise e ->
  let run1 := check_files cl prompt fz before [] w in
  let run2 := check_files cl prompt fz after [] (snd run1) in
  check_files cl prompt fz (before ++ bad :: after) [] w
  = (fst run1
     ++ [[(u "file_name", JStr (name bad));
          (u "company_name", JStr (u "不明"));
          (u "judgment", JStr (u "エラー"));
          (u "issues",
           JList [JDict [(u "severity", JStr (u "critical"));
                         (u "category", JStr (u "処理エラー"));
                         (u "description", JStr (str_of_exn e))]]);
          (u "detected_elements", JDict []);
          (u "notes", JStr (u "ファイル処理中にエラーが発生しました"))]]
     ++ fst run2,
     snd run2)
  /\ check_files cl prompt fz (before ++ after) [] w
     = (fst run1 ++ fst run2, snd run2).
Proof.
  intros Hbad. cbv zeta. split; [|apply check_files_app].
  rewrite check_files_app. cbv zeta.
  cbn [check_files]. rewrite Hbad. cbn [app].
  rewrite (check_files_acc after [_]). reflexivity.
Qed.

(** X16: one uploaded picture, end to end: the client is called once,
    with the file's own name in the user text and the bytes as a data URL
    of the suffix's media type, and the batch yields the one record made
    from the reply, named after the file with no page suffix. *)
Theorem single_picture_end_to_end (f : UploadedFile) (w : World cl) :
  In (lower (suffix (name f))) SUPPORTED_IMAGE_EXTENSIONS ->
  let media_type :=
    map_get media_type_map (lower (suffix (name f))) (u "image/png") in
  let request := request_of prompt (name f) media_type (b64encode (read f)) in
  check_files cl prompt fz [f] [] w
  = ([reply_record (name f) (fst (create cl request w))],
     snd (create cl request w))
  /\ image_url request
     = u "data:" ++ media_type ++ u ";base64," ++ b64encode (read f)
  /\ dict_get (u "file_name")
              (reply_record (name f) (fst (create cl request w)))
     = Some (JStr (name f)).
Proof.
  intros Hin. cbv zeta. split; [|split; [reflexivity|]].
  - cbn [check_files]. unfold process_uploaded_file.
    apply ext_in_spec in Hin. rewrite Hin.
    unfold _process_image_bytes. cbv zeta.
    rewrite check_multiple_images_spec. cbn.
    destruct (create cl _ w) as [reply w']. reflexivity.
  - apply reply_record_file_name.
Qed.

End BatchFacts.

Lemma batch_isolation_witness :
  List.length
    (fst (check_files scripted (u "rules") two_page_fitz
            ([{| name := u "a.png"; read := [x41] |}]
             ++ {| name := u "notes.txt"; read := [x42] |}
             :: [{| name := u "b.jpg"; read := [x43] |}])
            [] [Return (u "{}"); Return (u "問題なし")]))
  = 3%nat.
Proof.
  rewrite (proj1 (batch_isolation scripted (u "rules") two_page_fitz
                    [{| name := u "a.png"; read := [x41] |}]
                    [{| name := u "b.jpg"; read := [x43] |}]
                    {| name := u "notes.txt"; read := [x42] |}
                    (ValueError (u "Unsupported file type: notes.txt"))
                    [Return (u "{}"); Return (u "問題なし")]
                    ltac:(vm_compute; reflexivity))).
  vm_compute. reflexivity.
Defined.

Lemma single_picture_end_to_end_witness :
  check_files scripted (u "rules") two_page_fitz
    [{| name := u "Photo.JPG"; read := [x4d; x61; x6e] |}] []
    [Return (u "問題なし")]
  = ([_create_fallback_result (u "問題なし") (u "Photo.JPG")], []).
Proof.
  rewrite (proj1 (single_picture_end_to_end scripted (u "rules") two_page_fitz
                    {| name := u "Photo.JPG"; read := [x4d; x61; x6e] |}
                    [Return (u "問題なし")]
                    ltac:(vm_compute; tauto))).
  vm_compute. reflexivity.
Defined.

(** ** Replies made of whitespace *)

Section BlankReplyFacts.

Lemma lstrip_blank (s : str) :
  Forall (fun c => isspace c = true) s -> lstrip s = [].
Proof.
  induction 1 as [|c s Hc _ IH]; [reflexivity|].
  simpl. now rewrite Hc.
Qed.

Lemma contains_blank (sub s : str) (c : char) (rest : str) :
  Forall (fun x => isspace x = true) s ->
  sub = c :: rest -> isspace c = false ->
  contains sub s = false.
Proof.
  intros Hs -> Hc. induction Hs as [|x s Hx _ IH]; [reflexivity|].
  cbn [contains startswith]. rewrite IH, orb_false_r.
  destruct (c =? x) eqn:E; [|reflexivity].
  apply N.eqb_eq in E. congruence.
Qed.

(** X17: a reply that consists of whitespace only (the empty reply
    included) is no JSON: the parser returns the fallback record, and the
    judgment is 要確認 (needs review), as no marker can occur in it. *)
Theorem blank_reply_needs_review (content file_name : str) :
  Forall (fun c => isspace c = true) content ->
  _parse_response content file_name
  = Return (_create_fallback_result content file_name)
  /\ dict_get (u "judgment") (_create_fallback_result content file_name)
     = Some (JStr (u "要確認"))
  /\ dict_get (u "raw_response") (_create_fallback_result content file_name)
     = Some (JStr content).
Proof.
  intros Hblank.
  assert (Hno : forall sub c rest, sub = c :: rest -> isspace c = false ->
                  contains sub content = false)
    by (intros; eapply contains_blank; eauto).
  split; [|split; [|reflexivity]].
  - unfold _parse_response, json_str.
    rewrite (Hno (u "```json") _ _ eq_refl eq_refl).
    rewrite (Hno (u "```") _ _ eq_refl eq_refl).
    unfold strip, rstrip. rewrite (lstrip_blank content Hblank). reflexivity.
  - rewrite fallback_judgment_entry.
    rewrite (Hno (u "問題なし") _ _ eq_refl eq_refl).
    rewrite (Hno (u "問題あり") _ _ eq_refl eq_refl).
    rewrite (Hno (u "禁止") _ _ eq_refl eq_refl).
    rewrite (Hno (u "不合格") _ _ eq_refl eq_refl).
    reflexivity.
Qed.

Lemma blank_reply_needs_review_witness :
  _parse_response (u "  　 ") (u "photo.png")
  = Return (_create_fallback_result (u "  　 ") (u "photo.png"))
  /\ _parse_response [] (u "photo.png")
     = Return (_create_fallback_result [] (u "photo.png")).
Proof.
  split.
  - apply (blank_reply_needs_review (u "  　 ") (u "photo.png")).
    repeat constructor.
  - apply (blank_reply_needs_review [] (u "photo.png")). constructor.
Defined.

End BlankReplyFacts.

(** ** Records of a batch *)

Section BatchRecordFacts.

Variable cl : OpenAI.
Variable prompt : str.
Variable fz : Rasterizer.

Lemma records_from_named (f : UploadedFile) (n i : nat)
  (replies : list (result str)) :
  Forall (named_after f) (records_from (name f) n i replies).
Proof.
  revert i. induction replies as [|reply replies IH]; intros i; constructor.
  - exists (page_num_of n i). apply reply_record_file_name.
  - apply IH.
Qed.

(** X18: the batch loop returns one record per payload of every file
    the normaliser accepts and one record for every file it refuses, so a
    document without pages adds nothing; and every record carries the
    name of one of the uploaded files, with or without a page suffix. *)
Theorem batch_records (files : list UploadedFile) (w : World cl) :
  List.length (fst (check_files cl prompt fz files [] w))
  = list_sum
      (map (fun f => match process_uploaded_file fz f with
                     | Return images => List.length images
                     | Raise _ => 1%nat
                     end) files)
  /\ Forall (fun r => exists f, In f files /\ named_after f r)
            (fst (check_files cl prompt fz files [] w)).
Proof.
  revert w. induction files as [|f files IH]; intros w.
  - split; [reflexivity | constructor].
  - cbn [check_files map list_sum].
    assert (Hweak : forall w',
              Forall (fun r => exists f0, In f0 (f :: files) /\ named_after f0 r)
                     (fst (check_files cl prompt fz files [] w'))).
    { intros w'. destruct (IH w') as [_ H].
      eapply Forall_impl; [|exact H].
      intros r [f0 [Hin Hn]]. exists f0. split; [now right | exact Hn]. }
    destruct (process_uploaded_file fz f) as [images|e].
    + rewrite check_multiple_images_spec. cbv zeta. cbn [app].
      rewrite check_files_acc. cbn [fst].
      set (replies := fst (call_each cl _ w)).
      split.
      * rewrite length_app, length_records_from.
        unfold replies. rewrite length_call_each, length_requests_from.
        now rewrite (proj1 (IH _)).
      * apply Forall_app. split; [|apply Hweak].
        eapply Forall_impl; [|apply records_from_named].
        intros r Hr. exists f. split; [now left | exact Hr].
    + cbn [app]. rewrite check_files_acc. cbn [fst]. split.
      * rewrite length_app. cbn [List.length]. now rewrite (proj1 (IH _)).
      * apply Forall_app. split; [|apply Hweak].
        constructor; [|constructor].
        exists f. split; [now left|]. exists None. reflexivity.
Qed.

End BatchRecordFacts.

(** A batch of a picture, a refused file and a document of two pages. *)
Example batch_records_sample :
  map (dict_get (u "file_name"))
      (fst (check_files scripted (u "rules") two_page_fitz
              [{| name := u "a.png"; read := [x41] |};
               {| name := u "notes.txt"; read := [x42] |};
               {| name := u "scan.pdf"; read := [x25] |}]
              [] [Return (u "{}"); Return (u "問題なし"); Return (u "7")]))
  = [Some (JStr (u "a.png")); Some (JStr (u "notes.txt"));
     Some (JStr (u "scan.pdf (ページ 1)")); Some (JStr (u "scan.pdf (ページ 2)"))].
Proof. vm_compute. reflexivity. Qed.
